(** * localize.py: a shallow embedding and its verified properties

    The module keeps three process-wide variables ([__source_lang],
    [__target_lang], [__translations]) and offers a handful of public
    functions on top of them.  The embedding threads the three variables
    through every call as an explicit [state]; whatever the module reads
    from outside (translation files, the directory listing, the text of the
    calling script) is gathered in a read-only [world]. *)

From Stdlib Require Import String Ascii.
From stdpp Require Import base list numbers.

Set Warnings "-register-all".
Local Open Scope N_scope.
Local Open Scope list_scope.

(** ** Text

    A Python [str] is a sequence of Unicode code points; [len] counts code
    points.  *)

Abbreviation pystr := (list N).

(** A literal of the source, written with one character per code point. *)
Definition lit (s : string) : pystr :=
  map N_of_ascii (list_ascii_of_string s).
Arguments lit : simpl never.

(* Code points of the characters the module treats specially: line feed,
   number sign, double quote, single quote, parentheses, underscore. *)
Definition nl : N := 10.
Definition hash : N := 35.
Definition dquote : N := 34.
Definition squote : N := 39.
Definition lparen : N := 40.
Definition rparen : N := 41.
Definition underscore : N := 95.

Definition str_eqb (a b : pystr) : bool := bool_decide (a = b).

(** [sub in s] on strings. *)
Fixpoint starts_with (p s : pystr) : bool :=
  match p, s with
  | [], _ => true
  | _ :: _, [] => false
  | a :: p', b :: s' => (a =? b) && starts_with p' s'
  end.

Fixpoint str_contains (sub s : pystr) : bool :=
  starts_with sub s ||
  match s with
  | [] => false
  | _ :: s' => str_contains sub s'
  end.

(** [sep.join(parts)] *)
Fixpoint join (sep : pystr) (parts : list pystr) : pystr :=
  match parts with
  | [] => []
  | [p] => p
  | p :: rest => p ++ sep ++ join sep rest
  end.

(** [str.isspace] of a single code point: the white-space table of CPython. *)
Definition is_space (c : N) : bool :=
  ((9 <=? c) && (c <=? 13)) || ((28 <=? c) && (c <=? 32)) ||
  (c =? 133) || (c =? 160) || (c =? 5760) ||
  ((8192 <=? c) && (c <=? 8202)) ||
  (c =? 8232) || (c =? 8233) || (c =? 8239) || (c =? 8287) || (c =? 12288).

Fixpoint lstrip (s : pystr) : pystr :=
  match s with
  | c :: s' => if is_space c then lstrip s' else s
  | [] => []
  end.

(** [s.strip()] *)
Definition strip (s : pystr) : pystr := rev (lstrip (rev (lstrip s))).

(** [str(n)] for a non-negative [int]. *)
Definition digit (n : nat) : N := 48 + N.of_nat n.

Fixpoint str_of_nat_aux (fuel n : nat) (acc : pystr) : pystr :=
  match fuel with
  | O => acc
  | S fuel' =>
      let acc' := digit (n mod 10) :: acc in
      match (n / 10)%nat with
      | O => acc'
      | q => str_of_nat_aux fuel' q acc'
      end
  end.

Definition str_of_nat (n : nat) : pystr := str_of_nat_aux (S n) n [].

(** [str.lower] on the code points this development writes down in its
    examples: ASCII, the Latin-1 supplement, and U+0130 (LATIN CAPITAL LETTER
    I WITH DOT ABOVE), the one code point whose lowercase form is two code
    points long (U+0069 U+0307).  The operations below do not use this table:
    they take the lowercasing function as a parameter, so every general
    theorem holds for the interpreter's full table too. *)
Definition lower_cp (c : N) : pystr :=
  if (65 <=? c) && (c <=? 90) then [c + 32]
  else if (192 <=? c) && (c <=? 222) && negb (c =? 215) then [c + 32]
  else if c =? 304 then [105; 775]
  else [c].

Definition py_lower (s : pystr) : pystr := List.concat (map lower_cp s).

(** ** Values, exceptions, results *)

(** What [json.load] can return, which is also all the module ever sees as an
    argument. *)
Inductive pyval :=
| VNone
| VBool (b : bool)
| VInt (z : Z)
| VFloat (repr : pystr)
| VStr (s : pystr)
| VList (l : list pyval)
| VDict (d : list (pystr * pyval)).

(** The exception classes the module raises or lets through. [RecursionError]
    is the subclass of [RuntimeError] that [json.load] can raise; [OtherError]
    stands for any class outside the [RuntimeError] family that is not listed
    (for instance [PermissionError]). *)
Inductive exn :=
| ValueError (msg : pystr)
| FileNotFoundError (msg : pystr)
| JSONDecodeError (msg doc : pystr) (pos : nat)
| RuntimeError (msg : pystr)
| RecursionError (msg : pystr)
| RuntimeWarning (msg : pystr)
| KeyError (arg : pystr)
| TypeError (msg : pystr)
| AttributeError (msg : pystr)
| OtherError (cls msg : pystr).

(** [isinstance(e, RuntimeError)], the test of [except RuntimeError]. *)
Definition is_RuntimeError (e : exn) : bool :=
  match e with
  | RuntimeError _ | RecursionError _ => true
  | _ => false
  end.

(** The text [json] appends to the message of a [JSONDecodeError]: the line
    and the column of position [pos] in [doc], counted from 1. *)
Fixpoint count_nl (s : pystr) : nat :=
  match s with
  | [] => O
  | c :: s' => if c =? nl then S (count_nl s') else count_nl s'
  end.

Fixpoint last_nl (s : pystr) (i : nat) (found : option nat) : option nat :=
  match s with
  | [] => found
  | c :: s' => last_nl s' (S i) (if c =? nl then Some i else found)
  end.

Definition json_error_text (msg doc : pystr) (pos : nat) : pystr :=
  let before := take pos doc in
  let lineno := S (count_nl before) in
  let colno := match last_nl before 0 None with
               | None => S pos
               | Some i => (pos - i)%nat
               end in
  msg ++ lit ": line " ++ str_of_nat lineno ++ lit " column " ++ str_of_nat colno
    ++ lit " (char " ++ str_of_nat pos ++ lit ")".

(** [str(e)].  For a [KeyError] Python prints the [repr] of the key, which is
    the key between single quotes when the key holds no quote and nothing to
    escape. *)
Definition exn_str (e : exn) : pystr :=
  match e with
  | ValueError m | FileNotFoundError m | RuntimeError m | RecursionError m
  | RuntimeWarning m | TypeError m | AttributeError m | OtherError _ m => m
  | JSONDecodeError m doc pos => json_error_text m doc pos
  | KeyError a => [squote] ++ a ++ [squote]
  end.

Inductive res (A : Type) :=
| Ok (a : A)
| Raise (e : exn).
Arguments Ok {A} a.
Arguments Raise {A} e.

(** ** Dictionaries

    A Python [dict] keeps its keys in insertion order; assigning to a key that
    is already there keeps its place. *)
Section Dict.
Context {V : Type}.

Fixpoint dict_get (k : pystr) (d : list (pystr * V)) : option V :=
  match d with
  | [] => None
  | (k', v) :: d' => if str_eqb k' k then Some v else dict_get k d'
  end.

Fixpoint dict_set (k : pystr) (v : V) (d : list (pystr * V)) : list (pystr * V) :=
  match d with
  | [] => [(k, v)]
  | (k', v') :: d' =>
      if str_eqb k' k then (k', v) :: d' else (k', v') :: dict_set k v d'
  end.

Definition dict_keys (d : list (pystr * V)) : list pystr := map fst d.

Definition dict_mem (k : pystr) (d : list (pystr * V)) : bool :=
  bool_decide (k ∈ dict_keys d).
End Dict.

(** ** Module state and its surroundings *)

Record state := State {
  __source_lang : pyval;
  __target_lang : pyval;
  __translations : pyval;
}.

Definition initial_state : state :=
  {| __source_lang := VNone; __target_lang := VNone; __translations := VDict [] |}.

Definition set_source_lang (v : pyval) (st : state) : state :=
  {| __source_lang := v; __target_lang := __target_lang st;
     __translations := __translations st |}.
Definition set_target_lang (v : pyval) (st : state) : state :=
  {| __source_lang := __source_lang st; __target_lang := v;
     __translations := __translations st |}.
Definition set_translations (v : pyval) (st : state) : state :=
  {| __source_lang := __source_lang st; __target_lang := __target_lang st;
     __translations := v |}.

Record world := World {
  (* [json.load] of the file opened under the given name *)
  read_json : pystr -> res pyval;
  (* [glob.glob] of the pattern [*.translation] *)
  glob_translation : list pystr;
  (* [open(inspect.stack()[1].filename).read()] *)
  read_caller : res pystr;
}.

(** State and exceptions together. *)
Definition M (A : Type) : Type := state -> res A * state.

Definition ret {A} (a : A) : M A := fun st => (Ok a, st).
Definition raise {A} (e : exn) : M A := fun st => (Raise e, st).
Definition bind {A B} (m : M A) (f : A -> M B) : M B :=
  fun st =>
    match m st with
    | (Ok a, st') => f a st'
    | (Raise e, st') => (Raise e, st')
    end.
Definition lift {A} (r : res A) : M A := fun st => (r, st).
Definition get_translations : M pyval := fun st => (Ok (__translations st), st).
Definition put_translations (v : pyval) : M unit :=
  fun st => (Ok tt, set_translations v st).
Definition get_source_lang : M pyval := fun st => (Ok (__source_lang st), st).
Definition put_source_lang (v : pyval) : M unit :=
  fun st => (Ok tt, set_source_lang v st).
Definition get_target_lang : M pyval := fun st => (Ok (__target_lang st), st).
Definition put_target_lang (v : pyval) : M unit :=
  fun st => (Ok tt, set_target_lang v st).

Notation "x <- m ;; k" := (bind m (fun x => k))
  (at level 100, m at next level, right associativity).
Notation "m ;;; k" := (bind m (fun _ => k))
  (at level 100, right associativity).

(** [try: m  except C as e: h e] where [catches] is the class test of [C]. *)
Definition try_except {A} (m : M A) (catches : exn -> bool) (h : exn -> M A) : M A :=
  fun st =>
    match m st with
    | (Raise e, st') => if catches e then h e st' else (Raise e, st')
    | r => r
    end.

(** [try: m  finally: f], for a [finally] block that cannot itself raise. *)
Definition try_finally {A} (m : M A) (f : state -> state) : M A :=
  fun st => let (r, st') := m st in (r, f st').

(** [for x in l: body x], leaving the loop at the first exception. *)
Fixpoint for_each {X} (l : list X) (body : X -> M unit) : M unit :=
  match l with
  | [] => ret tt
  | x :: l' => body x ;;; for_each l' body
  end.

(** ** Regular expressions

    The two patterns of the module are sequences of the atoms below.  The
    matcher is a backtracking one, trying alternatives in the order of the
    [re] module: a greedy [.*] takes the longest run first, a lazy [.+?] the
    shortest.  Both patterns are used with [re.M]: [^] holds at the start of
    the text and after a line feed, [$] at its end and before a line feed;
    [.] is any character but the line feed. *)
Inductive atom :=
| ABol                     (* ^ *)
| AEol                     (* $ *)
| AChr (c : N)             (* an escaped or plain character *)
| ASet (cs : list N)       (* [...] *)
| AStarAny                 (* .* *)
| AGroupLazyPlusAny.       (* (.+?), the only group, number 1 *)

Definition in_set (c : N) (cs : list N) : bool := existsb (N.eqb c) cs.

(** [rmatch p bol s] matches [p] at the front of [s], [bol] telling whether
    this position starts a line; it gives group 1 and the text left after the
    match. *)
Fixpoint rmatch (p : list atom) (bol : bool) (s : pystr) {struct p}
  : option (option pystr * pystr) :=
  match p with
  | [] => Some (None, s)
  | ABol :: p' => if bol then rmatch p' bol s else None
  | AEol :: p' =>
      match s with
      | [] => rmatch p' bol s
      | c :: _ => if c =? nl then rmatch p' bol s else None
      end
  | AChr c :: p' =>
      match s with
      | x :: s' => if x =? c then rmatch p' (x =? nl) s' else None
      | [] => None
      end
  | ASet cs :: p' =>
      match s with
      | x :: s' => if in_set x cs then rmatch p' (x =? nl) s' else None
      | [] => None
      end
  | AStarAny :: p' =>
      (fix star (bol : bool) (s : pystr) {struct s} :=
         match s with
         | c :: s' =>
             if c =? nl then rmatch p' bol s
             else match star false s' with
                  | Some r => Some r
                  | None => rmatch p' bol s
                  end
         | [] => rmatch p' bol s
         end) bol s
  | AGroupLazyPlusAny :: p' =>
      (fix lazy (acc : pystr) (s : pystr) {struct s} :=
         match s with
         | c :: s' =>
             if c =? nl then None
             else match rmatch p' false s' with
                  | Some (_, rest) => Some (Some (acc ++ [c]), rest)
                  | None => lazy (acc ++ [c]) s'
                  end
         | [] => None
         end) [] s
  end.

(** [re.search(p, s, re.M) is not None] *)
Fixpoint search (p : list atom) (bol : bool) (s : pystr) : bool :=
  match rmatch p bol s with
  | Some _ => true
  | None =>
      match s with
      | [] => false
      | c :: s' => search p (c =? nl) s'
      end
  end.

Record rematch := ReMatch {
  group0 : pystr;
  group1 : option pystr;
}.

(** [re.finditer(p, s, re.M)]: the matches from left to right, none
    overlapping another; [skip] counts the characters still covered by the
    match found last.  Neither pattern of the module matches the empty text;
    after an empty match the scan here moves on by one character. *)
Fixpoint finditer (p : list atom) (bol : bool) (skip : nat) (s : pystr)
  : list rematch :=
  match skip with
  | S k =>
      match s with
      | [] => []
      | c :: s' => finditer p (c =? nl) k s'
      end
  | O =>
      match rmatch p bol s with
      | Some (g, rest) =>
          let n := (length s - length rest)%nat in
          ReMatch (take n s) g ::
            match s with
            | [] => []
            | c :: s' => finditer p (c =? nl) (n - 1) s'
            end
      | None =>
          match s with
          | [] => []
          | c :: s' => finditer p (c =? nl) 0 s'
          end
      end
  end.

(** The pattern of a lookup call: a line holding an underscore, an opening
    parenthesis, a quote of either kind, the captured phrase, a quote of
    either kind and a closing parenthesis. *)
Definition call_re : list atom :=
  [ABol; AStarAny; AChr underscore; AChr lparen; ASet [dquote; squote];
   AGroupLazyPlusAny; ASet [dquote; squote]; AChr rparen; AStarAny; AEol].

(** The pattern [^.*#] of a line that is taken for a comment. *)
Definition comment_re : list atom := [ABol; AStarAny; AChr hash].

(** The loop over the matches, shared by the three scanning functions:
    [add] is what the function does with a phrase it keeps. *)
Definition scan {A} (add : pystr -> A -> A) (init : A) (script : pystr) : A :=
  foldl (fun acc m =>
           if search comment_re true (group0 m) then acc
           else match group1 m with
                | Some phrase => add phrase acc
                | None => acc
                end)
        init (finditer call_re true 0 script).

(** [scriptdata = scriptdata + [match.group(1)]] *)
Definition scan_list (script : pystr) : list pystr :=
  scan (fun phrase acc => acc ++ [phrase]) [] script.

(** [scriptdata.update] with the phrase mapped to the empty string *)
Definition scan_dict (seed : list (pystr * pystr)) (script : pystr)
  : list (pystr * pystr) :=
  scan (fun phrase acc => dict_set phrase [] acc) seed script.

(** ** Operations on values *)

(** [type(v) is str and len(v) == 2], giving the string. *)
Definition as_code (v : pyval) : option pystr :=
  match v with
  | VStr s => if Nat.eqb (length s) 2 then Some s else None
  | _ => None
  end.

(** [v[key]] for a [str] key. *)
Definition py_getitem (v : pyval) (key : pystr) : res pyval :=
  match v with
  | VDict d =>
      match dict_get key d with
      | Some x => Ok x
      | None => Raise (KeyError key)
      end
  | VList _ => Raise (TypeError (lit "list indices must be integers or slices, not str"))
  | VStr _ => Raise (TypeError (lit "string indices must be integers, not 'str'"))
  | _ => Raise (TypeError (lit "object is not subscriptable"))
  end.

(** [v.keys()] *)
Definition py_keys (v : pyval) : res (list pystr) :=
  match v with
  | VDict d => Ok (dict_keys d)
  | _ => Raise (AttributeError (lit "object has no attribute 'keys'"))
  end.

(** [a == b] on what the two language variables hold: [None] or a [str]. *)
Definition lang_eqb (a b : pyval) : bool :=
  match a, b with
  | VNone, VNone => true
  | VStr x, VStr y => str_eqb x y
  | _, _ => false
  end.

Definition special_prefix : pystr := lit "__".

(** [key[:2] == "__"] *)
Definition is_special (key : pystr) : bool := str_eqb (take 2 key) special_prefix.

Definition translation_ext : pystr := lit ".translation".

(** The function object returned by [translator]. *)
Inductive handle := Gettext.

Section Localize.
(** [str.lower] of the interpreter, and the surroundings of the run. *)
Variable lower : pystr -> pystr.
Variable w : world.

(** [v.lower()] *)
Definition py_lower_method (v : pyval) : res pystr :=
  match v with
  | VStr s => Ok (lower s)
  | _ => Raise (AttributeError (lit "object has no attribute 'lower'"))
  end.

Definition __load_translations (target_lang : pystr) : M unit :=
  fun st =>
    match read_json w (target_lang ++ translation_ext) with
    | Ok v => (Ok tt, set_translations v st)
    | Raise (FileNotFoundError _) =>
        (Raise (FileNotFoundError
                  (lit "No translation file found for target language '"
                     ++ target_lang ++ lit "'.")), st)
    | Raise (JSONDecodeError _ doc pos) =>
        (Raise (JSONDecodeError
                  ([nl] ++ lit "Couldn't parse JSON in file '" ++ target_lang
                     ++ lit ".translation'. "
                     ++ lit "Check to make sure it is not malformed." ++ [nl]
                     ++ lit "Location of error in JSON data file") doc pos), st)
    | Raise e => (Raise e, st)
    end.

Definition get_lang_readable_name (lang : pyval) : M pyval :=
  if lang_eqb lang (VStr (lit "en")) then ret (VStr (lit "English"))
  else
    match as_code lang with
    | None =>
        raise (ValueError
                 (lit "source_lang must be a two character string, such as 'en' or 'pl'."))
    | Some code =>
        temptrans <- get_translations ;;
        __load_translations code ;;;
        loaded <- get_translations ;;
        output <- lift (py_getitem loaded (lit "__target_lang_readable")) ;;
        put_translations temptrans ;;;
        ret output
    end.

Definition translator (source_lang target_lang : pyval) : M handle :=
  match as_code source_lang with
  | None =>
      raise (ValueError
               (lit "source_lang must be a two character string, such as 'en' or 'pl'."))
  | Some src =>
      put_source_lang (VStr (lower src)) ;;;
      match target_lang with
      | VNone => put_target_lang VNone
      | _ =>
          match as_code target_lang with
          | Some tgt => put_target_lang (VStr (lower tgt))
          | None =>
              raise (ValueError
                       (lit "target_lang must be either a two character string, or the value None."))
          end
      end ;;;
      target <- get_target_lang ;;
      source <- get_source_lang ;;
      (if negb (lang_eqb target VNone) && negb (lang_eqb target source)
       then
         match target with
         | VStr tgt => __load_translations tgt
         | _ => raise (TypeError (lit "unsupported operand"))
         end
       else put_translations (VDict [])) ;;;
      ret Gettext
  end.

Definition unconfigured_msg : pystr :=
  lit "The source language of your script has not been set to valid data. "
    ++ lit "Please make sure it is set in your calling script by first calling "
    ++ lit "the function translator() with a valid source_lang parameter.".

Definition bad_target_msg : pystr :=
  lit "The target language of your script has been set to a bad value. "
    ++ lit "Please make sure it is set in your calling script by first calling "
    ++ lit "the function translator() with a valid target_lang parameter, or "
    ++ lit "otherwise setting the target_lang to None.".

(** The second guard of [__gettext]: the type is neither [str] nor
    [NoneType], or the value is a [str] whose length is not 2. *)
Definition bad_target (v : pyval) : bool :=
  match v with
  | VNone => false
  | VStr t => negb (Nat.eqb (length t) 2)
  | _ => true
  end.

Definition not_found_msg (phrase tgt : pystr) : pystr :=
  lit "Source phrase '" ++ phrase
    ++ lit "' was not found in the translation file for target_lang '"
    ++ tgt ++ lit "'.".

Definition __gettext (source_phrase : pyval) : M pyval :=
  fun st =>
    match as_code (__source_lang st) with
    | None => (Raise (RuntimeError unconfigured_msg), st)
    | Some _ =>
        if bad_target (__target_lang st)
        then (Raise (RuntimeError bad_target_msg), st)
        else if lang_eqb (__target_lang st) VNone
                || lang_eqb (__target_lang st) (__source_lang st)
        then (Ok source_phrase, st)
        else
          match py_keys (__translations st), source_phrase, __target_lang st with
          | Raise e, _, _ => (Raise e, st)
          | Ok keys, VStr phrase, VStr tgt =>
              if bool_decide (phrase ∈ keys)
              then (py_getitem (__translations st) phrase, st)
              else (Raise (KeyError (not_found_msg phrase tgt)), st)
          | Ok _, (VList _ | VDict _), _ =>
              (Raise (TypeError (lit "unhashable type")), st)
          | Ok _, _, _ =>
              (Raise (TypeError (lit "can only concatenate str to str")), st)
          end
    end.

(** Calling what [translator] returned. *)
Definition call (h : handle) : pyval -> M pyval :=
  match h with Gettext => __gettext end.

(** [__translations["__source_lang"].lower()] *)
Definition declared_source : M pystr :=
  loaded <- get_translations ;;
  v <- lift (py_getitem loaded (lit "__source_lang")) ;;
  lift (py_lower_method v).

Definition mismatch_msg (lang declared source_lang : pystr) : pystr :=
  lit "The translation file for '" ++ lang ++ lit "' defines a source language of '"
    ++ declared ++ lit "' which does not match the "
    ++ lit "program's specified source language of '" ++ source_lang ++ lit "'.".

Definition load_error_msg (lang : pystr) : pystr :=
  lit "Could not load the translation file for '" ++ lang
    ++ lit "'. Please check the file for errors.".

(** The body of the [try] block of [getlangs]. *)
Definition getlangs_try (source_lang lang : pystr) : M unit :=
  __load_translations lang ;;;
  declared <- declared_source ;;
  if negb (str_eqb declared source_lang)
  then declared' <- declared_source ;;
       raise (RuntimeError (mismatch_msg lang declared' source_lang))
  else ret tt.

(** The [except RuntimeError as e] block. *)
Definition getlangs_except (lang : pystr) (e : exn) : M unit :=
  if str_contains (lit "does not match") (exn_str e)
  then raise e
  else raise (RuntimeError (load_error_msg lang)).

(** One turn of the loop of [getlangs]. *)
Definition getlangs_body (source_lang : pystr) (temptrans : pyval) (lang : pystr)
  : M unit :=
  if str_eqb lang source_lang then ret tt
  else
    try_finally
      (try_except (getlangs_try source_lang lang) is_RuntimeError
                  (getlangs_except lang))
      (set_translations temptrans).

Definition getlangs (source_lang : pyval) : M (list pystr) :=
  match as_code source_lang with
  | None =>
      raise (ValueError
               (lit "source_lang must be a string of exactly two characters in length."))
  | Some src =>
      let source_lang := lower src in
      let langs := [source_lang] in
      let langs := langs ++ glob_translation w in
      let langs := map (take 2) langs in
      temptrans <- get_translations ;;
      for_each langs (getlangs_body source_lang temptrans) ;;;
      ret langs
  end.
End Localize.

Arguments mismatch_msg : simpl never.
Arguments load_error_msg : simpl never.
Arguments not_found_msg : simpl never.

(** ** [json.dumps(data, indent=4)] for a [dict] from [str] to [str] *)

Definition hex_digit (n : N) : N := if n <? 10 then 48 + n else 87 + n.

(** The four lowercase hexadecimal digits of a number below 65536. *)
Definition hex4 (n : N) : pystr :=
  [hex_digit (n / 4096 mod 16); hex_digit (n / 256 mod 16);
   hex_digit (n / 16 mod 16); hex_digit (n mod 16)].

Definition backslash : N := 92.

Definition uescape (n : N) : pystr := [backslash; 117] ++ hex4 n.

(** The escape of one code point with [ensure_ascii] left at its default. *)
Definition json_escape_cp (c : N) : pystr :=
  if c =? dquote then [backslash; dquote]
  else if c =? backslash then [backslash; backslash]
  else if c =? 10 then [backslash; 110]
  else if c =? 13 then [backslash; 114]
  else if c =? 9 then [backslash; 116]
  else if c =? 8 then [backslash; 98]
  else if c =? 12 then [backslash; 102]
  else if (32 <=? c) && (c <=? 126) then [c]
  else if c <? 65536 then uescape c
  else uescape (55296 + (c - 65536) / 1024) ++ uescape (56320 + (c - 65536) mod 1024).

Definition json_str (s : pystr) : pystr :=
  [dquote] ++ List.concat (map json_escape_cp s) ++ [dquote].

Definition json_dumps (data : list (pystr * pystr)) : pystr :=
  match data with
  | [] => lit "{}"
  | _ =>
      lit "{" ++ [nl]
        ++ join ([44; nl])
             (map (fun kv => lit "    " ++ json_str (fst kv) ++ lit ": " ++ json_str (snd kv))
                  data)
        ++ [nl] ++ lit "}"
  end.

(** ** The scanning operations *)

Definition code_error_msg (name : pystr) : pystr :=
  name ++ lit " must be a two character string, such as 'en' or 'pl'.".

(** The [dict] the template and the validation start from. *)
Definition seed_data (source_lang target_lang : pystr) : list (pystr * pystr) :=
  [(lit "__source_lang", source_lang);
   (lit "__target_lang", target_lang);
   (lit "__target_lang_readable", [])].

(** [type(v) != str or len(v.strip()) < 1] *)
Definition no_valid_translation (v : pyval) : bool :=
  match v with
  | VStr s => Nat.ltb (length (strip s)) 1
  | _ => true
  end.

Definition missing_line (key : pystr) : pystr :=
  lit "    " ++ [dquote] ++ key ++ [dquote] ++ lit ": None," ++ [nl].

Definition incomplete_line (key : pystr) : pystr :=
  lit "(!) Source phrase '" ++ key
    ++ lit "' exists in file but has no valid translation to return.".

Definition missing_header : pystr :=
  lit "(!) Source phrase for the following keys does not exist on file:".

(** The loop of [validate_translation_data] over the keys of [scriptdata]. *)
Fixpoint validate_loop (loaded : pyval) (keys : list pystr)
    (missings incompletes : list pystr) : res (list pystr * list pystr) :=
  match keys with
  | [] => Ok (missings, incompletes)
  | key :: rest =>
      match py_keys loaded with
      | Raise e => Raise e
      | Ok file_keys =>
          if negb (bool_decide (key ∈ file_keys))
          then validate_loop loaded rest (missings ++ [missing_line key]) incompletes
          else
            match py_getitem loaded key with
            | Raise e => Raise e
            | Ok v =>
                if no_valid_translation v
                then validate_loop loaded rest missings
                       (incompletes ++ [incomplete_line key])
                else validate_loop loaded rest missings incompletes
            end
      end
  end.

(** The report raised as a warning. *)
Definition build_report (missings incompletes : list pystr) : pystr :=
  let report := incompletes in
  let report :=
    if Nat.ltb 0 (length missings)
    then (report ++ [missing_header]) ++ missings
    else report in
  let report := join [nl] report in
  if Nat.ltb 0 (length missings)
  then take (length report - 2) report
  else report.

Definition summary (n m : nat) : pystr :=
  lit "Found " ++ str_of_nat n
    ++ lit " unique translatable strings in file, plus "
    ++ str_of_nat m ++ lit " special keys. All translation data OK.".

Definition not_in_source_line (phrase : pystr) : pystr :=
  [squote] ++ phrase ++ lit "' was not found in the source code.".

Section Scanning.
Variable lower : pystr -> pystr.
Variable w : world.

Definition get_data_template (source_lang target_lang : pyval) : M pystr :=
  match as_code source_lang with
  | None => raise (ValueError (code_error_msg (lit "source_lang")))
  | Some src =>
      let source_lang := lower src in
      match as_code target_lang with
      | None => raise (ValueError (code_error_msg (lit "target_lang")))
      | Some tgt =>
          let target_lang := lower tgt in
          script <- lift (read_caller w) ;;
          let data := scan_dict (seed_data source_lang target_lang) script in
          ret (json_dumps data)
      end
  end.

Definition cleanup_translation_data (target_lang : pyval) : M pystr :=
  match as_code target_lang with
  | None => raise (ValueError (code_error_msg (lit "target_lang")))
  | Some tgt =>
      script <- lift (read_caller w) ;;
      let scriptdata := scan_list script in
      transbackup <- get_translations ;;
      __load_translations w tgt ;;;
      loaded <- get_translations ;;
      translationfiledata <- lift (py_keys loaded) ;;
      let report :=
        foldl (fun report phrase =>
                 if is_special phrase then report
                 else if negb (bool_decide (phrase ∈ scriptdata))
                      then report ++ [not_in_source_line phrase]
                      else report)
              [] translationfiledata in
      ret (join [nl] report)
  end.

Definition validate_translation_data (source_lang target_lang : pyval) : M pystr :=
  match as_code source_lang with
  | None => raise (ValueError (code_error_msg (lit "source_lang")))
  | Some src =>
      let source_lang := lower src in
      match as_code target_lang with
      | None => raise (ValueError (code_error_msg (lit "target_lang")))
      | Some tgt =>
          let target_lang := lower tgt in
          script <- lift (read_caller w) ;;
          let scriptdata := scan_dict (seed_data source_lang target_lang) script in
          (* only the number of special keys is used below *)
          let specialkeys := filter (fun kv => is_special (fst kv) = true) scriptdata in
          transbackup <- get_translations ;;
          __load_translations w target_lang ;;;
          loaded <- get_translations ;;
          found <- lift (validate_loop loaded (dict_keys scriptdata) [] []) ;;
          let missings := fst found in
          let incompletes := snd found in
          if Nat.ltb 0 (length incompletes) || Nat.ltb 0 (length missings)
          then
            raise (RuntimeWarning
                     (lit "Errors found in translation data:" ++ [nl]
                        ++ build_report missings incompletes))
          else
            put_translations transbackup ;;;
            ret (summary (length scriptdata - length specialkeys)
                         (length specialkeys))
      end
  end.

(** ** Sequences of calls *)

Inductive op :=
| OpTranslator (source_lang target_lang : pyval)
| OpLookup (source_phrase : pyval)
| OpReadableName (lang : pyval)
| OpGetlangs (source_lang : pyval)
| OpTemplate (source_lang target_lang : pyval)
| OpCleanup (target_lang : pyval)
| OpValidate (source_lang target_lang : pyval).

(** The state a call leaves behind, whether it returns or raises. *)
Definition exec (o : op) (st : state) : state :=
  match o with
  | OpTranslator s t => snd (translator lower w s t st)
  | OpLookup p => snd (__gettext p st)
  | OpReadableName l => snd (get_lang_readable_name w l st)
  | OpGetlangs s => snd (getlangs lower w s st)
  | OpTemplate s t => snd (get_data_template s t st)
  | OpCleanup t => snd (cleanup_translation_data t st)
  | OpValidate s t => snd (validate_translation_data s t st)
  end.

Definition exec_all (ops : list op) (st : state) : state :=
  foldl (fun st o => exec o st) st ops.
End Scanning.

(** ** Concrete surroundings used by the examples *)

(** A directory given by the parsed contents of its files, the names found by
    [glob], and the text of the calling script. *)
Definition world_of (files : list (pystr * pyval)) (found : list pystr)
    (script : pystr) : world :=
  {| read_json := fun name =>
       match dict_get name files with
       | Some v => Ok v
       | None => Raise (FileNotFoundError name)
       end;
     glob_translation := found;
     read_caller := Ok script |}.

Definition empty_world : world := world_of [] [] [].



(** A calling script of two lines: a lookup of Hello, and a commented-out
    lookup of Ignored. *)
Definition hello_script : pystr :=
  lit "_(" ++ [dquote] ++ lit "Hello" ++ [dquote] ++ lit ")" ++ [nl]
    ++ lit "# _(" ++ [dquote] ++ lit "Ignored" ++ [dquote] ++ lit ")".

(** A complete Polish translation file for that script. *)
Definition pl_entries : list (pystr * pyval) :=
  [(lit "__source_lang", VStr (lit "en"));
   (lit "__target_lang", VStr (lit "pl"));
   (lit "__target_lang_readable", VStr (lit "Polski"));
   (lit "Hello", VStr (lit "Czesc"))].

Definition world_pl : world :=
  world_of [(lit "pl.translation", VDict pl_entries)] [lit "pl.translation"]
           hello_script.

(** ** The shape of the translation store

    The store is the empty [dict], or what one translation file parsed to. *)
Definition good_store (w : world) (v : pyval) : Prop :=
  v = VDict [] \/ exists code, read_json w (code ++ translation_ext) = Ok v.

Definition store_inv (w : world) (st : state) : Prop :=
  good_store w (__translations st).

(** A computation that keeps the store in shape, however it ends. *)
Definition keeps_inv {A} (w : world) (m : M A) : Prop :=
  forall st, store_inv w st -> store_inv w (snd (m st)).

(** A German file that holds a phrase and none of the three special keys. *)
Definition de_entries : list (pystr * pyval) :=
  [(lit "Hello", VStr (lit "Hallo"))].

Definition world_de : world :=
  world_of [(lit "de.translation", VDict de_entries)] [lit "de.translation"]
           hello_script.

(** A directory where [glob] finds a file that is not named after a
    two-character code. *)
Definition world_polish : world :=
  world_of [(lit "polish.translation", VDict pl_entries)]
           [lit "polish.translation"] hello_script.

(** A directory whose translation file does not parse. *)
Definition world_malformed : world :=
  {| read_json := fun name =>
       if str_eqb name (lit "xx.translation")
       then Raise (JSONDecodeError (lit "Expecting value") (lit "{,}") 1)
       else Raise (FileNotFoundError name);
     glob_translation := [lit "xx.translation"];
     read_caller := Ok hello_script |}.

(** ** Candidates of the enumeration *)

(** The list [getlangs] walks over and returns. *)
Definition candidates (lower : pystr -> pystr) (w : world) (src : pystr)
  : list pystr :=
  map (take 2) ([lower src] ++ glob_translation w).

(** A candidate that the loop of [getlangs] goes past: the source language
    itself, or a code whose file parses to a value declaring, up to case, the
    source language. *)
Definition passes (lower : pystr -> pystr) (w : world)
    (source_lang lang : pystr) : Prop :=
  lang = source_lang
  \/ exists v d,
       read_json w (lang ++ translation_ext) = Ok v
       /\ py_getitem v (lit "__source_lang") = Ok (VStr d)
       /\ lower d = source_lang.

(** A directory whose only translation file is named after the source
    language and declares another one. *)
Definition world_en_fr : world :=
  world_of [(lit "en.translation",
             VDict [(lit "__source_lang", VStr (lit "fr"));
                    (lit "__target_lang", VStr (lit "en"));
                    (lit "__target_lang_readable", VStr (lit "English"))])]
           [lit "en.translation"] hello_script.

(** A directory with a Polish file written for English and a German one
    written for French. *)
Definition world_pl_de : world :=
  world_of [(lit "pl.translation", VDict pl_entries);
            (lit "de.translation",
             VDict [(lit "__source_lang", VStr (lit "FR"));
                    (lit "__target_lang", VStr (lit "de"));
                    (lit "__target_lang_readable", VStr (lit "Deutsch"))])]
           [lit "pl.translation"; lit "de.translation"] hello_script.

(** ** Lines and comment markers *)

(** Whether the first line of a text holds a number sign. *)
Fixpoint line_has_hash (s : pystr) : bool :=
  match s with
  | [] => false
  | c :: s' => if c =? nl then false else (c =? hash) || line_has_hash s'
  end.

(** The phrases of the matches that the comment test lets through. *)
Definition kept_phrases (ms : list rematch) : list pystr :=
  omap (fun m => if bool_decide (hash ∈ group0 m) then None else group1 m) ms.



(** ** Counting the keys of the validation *)

(** The three keys every [scriptdata] starts with. *)
Definition seed_keys : list pystr :=
  [lit "__source_lang"; lit "__target_lang"; lit "__target_lang_readable"].

(** What [update] does to the list of keys of a [dict]. *)
Definition add_key (keys : list pystr) (k : pystr) : list pystr :=
  if bool_decide (k ∈ keys) then keys else keys ++ [k].

(** The distinct scanned phrases outside the special keys, and the distinct
    scanned phrases that look like a special key without being one of the
    three. *)
Definition plain_phrases (script : pystr) : list pystr :=
  remove_dups (filter (fun p => is_special p = false) (scan_list script)).

Definition extra_special_phrases (script : pystr) : list pystr :=
  remove_dups (filter (fun p => is_special p = true /\ p ∉ seed_keys)
                      (scan_list script)).

(** A calling script that looks up a phrase written like a special key, and
    a Polish file that translates it. *)
Definition dunder_script : pystr :=
  lit "_(" ++ [dquote] ++ lit "__x" ++ [dquote] ++ lit ")".

Definition world_dunder : world :=
  world_of [(lit "pl.translation",
             VDict [(lit "__source_lang", VStr (lit "en"));
                    (lit "__target_lang", VStr (lit "pl"));
                    (lit "__target_lang_readable", VStr (lit "Polski"));
                    (lit "__x", VStr (lit "y"))])]
           [lit "pl.translation"] dunder_script.

(** ** Further surroundings used by examples *)

(** A directory whose Polish file holds a JSON array instead of an object. *)
Definition world_array : world :=
  world_of [(lit "pl.translation", VList [VStr (lit "Hello")])]
           [lit "pl.translation"] hello_script.

(** A directory whose one translation file is nested too deeply for
    [json.load]. *)
Definition world_deep : world :=
  {| read_json := fun name =>
       if str_eqb name (lit "xx.translation")
       then Raise (RecursionError (lit "maximum recursion depth exceeded"))
       else Raise (FileNotFoundError name);
     glob_translation := [lit "xx.translation"];
     read_caller := Ok hello_script |}.

(** The state after a successful [translator('en', 'pl')] in [world_pl]. *)
Definition state_en_pl : state :=
  {| __source_lang := VStr (lit "en"); __target_lang := VStr (lit "pl");
     __translations := VDict pl_entries |}.

(** What the handler of [getlangs] makes of an exception of the guarded
    block. *)
Definition handled (lang : pystr) (e : exn) : exn :=
  if is_RuntimeError e && negb (str_contains (lit "does not match") (exn_str e))
  then RuntimeError (load_error_msg lang)
  else e.

(** ** Reports of the scanning functions *)

(** The keys of a translation file that [cleanup_translation_data] reports:
    those that do not start with two underscores and are not among the
    scanned phrases. *)
Definition unused_keys (scriptdata file_keys : list pystr) : list pystr :=
  filter (fun k => is_special k = false /\ k ∉ scriptdata) file_keys.

(** The keys the validation goes through: the three it starts with, then the
    scanned phrases as they are first met. *)
Definition validation_keys (script : pystr) : list pystr :=
  foldl add_key seed_keys (scan_list script).

(** A key with no entry in the file, and a key whose entry is not a string
    or is blank. *)
Definition is_missing (d : list (pystr * pyval)) (key : pystr) : bool :=
  negb (bool_decide (key ∈ dict_keys d)).

Definition is_incomplete (d : list (pystr * pyval)) (key : pystr) : bool :=
  match dict_get key d with
  | Some v => no_valid_translation v
  | None => false
  end.

(** ** The lazy group on its own

    The inner loop of [rmatch] for the captured group, with what follows the
    group given as [k]. *)
Definition lazy_from (k : pystr -> option (option pystr * pystr))
  : pystr -> pystr -> option (option pystr * pystr) :=
  fix lazy (acc : pystr) (s : pystr) {struct s} :=
    match s with
    | c :: s' =>
        if c =? nl then None
        else match k s' with
             | Some (_, rest) => Some (Some (acc ++ [c]), rest)
             | None => lazy (acc ++ [c]) s'
             end
    | [] => None
    end.

(** The text of a lookup call with the given quotes around the phrase. *)
Definition call_text (q1 q2 : N) (phrase : pystr) : pystr :=
  [underscore; lparen; q1] ++ phrase ++ [q2; rparen].

Definition is_quote (q : N) : Prop := q = dquote \/ q = squote.

(** * Verified properties *)

(** ** Auxiliary facts *)

Lemma as_code_VStr (s : pystr) :
  length s = 2%nat -> as_code (VStr s) = Some s.
Proof. intros H. unfold as_code. now rewrite H. Qed.

Lemma as_code_Some (v : pyval) (s : pystr) :
  as_code v = Some s -> v = VStr s /\ length s = 2%nat.
Proof.
  destruct v; simpl; try discriminate.
  destruct (Nat.eqb_spec (length s0) 2); [|discriminate].
  intros [= ->]. now split.
Qed.

Lemma str_eqb_refl (s : pystr) : str_eqb s s = true.
Proof. unfold str_eqb. now apply bool_decide_eq_true. Qed.

Lemma str_eqb_eq (a b : pystr) : str_eqb a b = true <-> a = b.
Proof. unfold str_eqb. apply bool_decide_eq_true. Qed.

Lemma str_eqb_neq (a b : pystr) : str_eqb a b = false <-> a <> b.
Proof. unfold str_eqb. apply bool_decide_eq_false. Qed.

(** ** Configuration *)

(** C10: with a well-formed source code and a target that is neither [None]
    nor a two-character string, [translator] raises the validation error of
    the target after it has stored the lowercased source code; the target
    variable and the translation store are as they were before the call. *)
Theorem translator_bad_target_keeps_source
    (lower : pystr -> pystr) (w : world) (src : pystr) (tgt : pyval) (st : state) :
  length src = 2%nat -> tgt <> VNone -> as_code tgt = None ->
  exists st',
    translator lower w (VStr src) tgt st =
      (Raise (ValueError
                (lit "target_lang must be either a two character string, or the value None.")),
       st')
    /\ __source_lang st' = VStr (lower src)
    /\ __target_lang st' = __target_lang st
    /\ __translations st' = __translations st.
Proof.
  intros Hsrc Hnone Hbad.
  exists (set_source_lang (VStr (lower src)) st).
  split; [|now repeat split].
  unfold translator. rewrite (as_code_VStr _ Hsrc).
  unfold bind at 1. cbn beta iota.
  destruct tgt; try congruence; simpl in Hbad |- *;
    try reflexivity.
  unfold bind, raise. simpl. now rewrite Hbad.
Qed.

Lemma translator_bad_target_keeps_source_witness :
  exists st',
    translator py_lower empty_world (VStr (lit "EN")) (VStr (lit "pol")) initial_state =
      (Raise (ValueError
                (lit "target_lang must be either a two character string, or the value None.")),
       st')
    /\ __source_lang st' = VStr (py_lower (lit "EN"))
    /\ __target_lang st' = __target_lang initial_state
    /\ __translations st' = __translations initial_state.
Proof.
  apply (translator_bad_target_keeps_source py_lower empty_world (lit "EN")
           (VStr (lit "pol")) initial_state).
  - reflexivity.
  - discriminate.
  - reflexivity.
Defined.

Lemma starts_with_app (p s : pystr) : starts_with p (p ++ s) = true.
Proof.
  induction p as [|c p IH]; simpl; [reflexivity|].
  now rewrite N.eqb_refl, IH.
Qed.

Lemma str_contains_here (p s : pystr) :
  starts_with p s = true -> str_contains p s = true.
Proof. intros H. destruct s; simpl in *; now rewrite H. Qed.

Lemma str_contains_app_r (p a s : pystr) :
  str_contains p s = true -> str_contains p (a ++ s) = true.
Proof.
  intros H. induction a as [|c a IH]; simpl; [exact H|].
  rewrite IH. apply orb_true_r.
Qed.

(** A text contains each of the pieces it is put together from. *)
Lemma str_contains_mid (p a b : pystr) : str_contains p (a ++ p ++ b) = true.
Proof. apply str_contains_app_r, str_contains_here, starts_with_app. Qed.

Lemma dict_get_Some_keys {V} (k : pystr) (d : list (pystr * V)) (v : V) :
  dict_get k d = Some v -> k ∈ dict_keys d.
Proof.
  induction d as [|[k' v'] d IH]; simpl; [discriminate|].
  destruct (str_eqb k' k) eqn:E.
  - apply str_eqb_eq in E. subst. intros _. apply list_elem_of_here.
  - intros H. apply list_elem_of_further, IH, H.
Qed.

Lemma dict_get_None_keys {V} (k : pystr) (d : list (pystr * V)) :
  dict_get k d = None -> k ∉ dict_keys d.
Proof.
  induction d as [|[k' v'] d IH]; simpl.
  - intros _ H. inversion H.
  - destruct (str_eqb k' k) eqn:E; [discriminate|].
    apply str_eqb_neq in E. intros H Hin.
    apply elem_of_cons in Hin as [->|Hin]; [congruence|].
    now apply IH.
Qed.




(** ** Lookup *)




(** ** The translation store *)

(** What a load does: it stores the whole parsed value, or raises and leaves
    the state alone. *)
Lemma load_translations_cases (w : world) (code : pystr) (st : state) :
  (exists v, read_json w (code ++ translation_ext) = Ok v
             /\ __load_translations w code st = (Ok tt, set_translations v st))
  \/ (exists e, __load_translations w code st = (Raise e, st)).
Proof.
  unfold __load_translations.
  destruct (read_json w (code ++ translation_ext)) as [v|e].
  - left. now exists v.
  - right. destruct e; eexists; reflexivity.
Qed.

Section StoreInvariant.
Variable lower : pystr -> pystr.
Variable w : world.

Lemma keeps_ret {A} (a : A) : keeps_inv w (ret a).
Proof. now intros st H. Qed.

Lemma keeps_raise {A} (e : exn) : keeps_inv w (@raise A e).
Proof. now intros st H. Qed.

Lemma keeps_lift {A} (r : res A) : keeps_inv w (lift r).
Proof. now intros st H. Qed.

Lemma keeps_bind {A B} (m : M A) (f : A -> M B) :
  keeps_inv w m -> (forall a, keeps_inv w (f a)) -> keeps_inv w (bind m f).
Proof.
  intros Hm Hf st H. unfold bind. specialize (Hm st H).
  destruct (m st) as [[a|e] st1]; simpl in *; [now apply Hf|exact Hm].
Qed.

(** A value read from the store is in shape wherever the store is. *)
Lemma keeps_get_bind {B} (f : pyval -> M B) :
  (forall v, good_store w v -> keeps_inv w (f v)) ->
  keeps_inv w (bind get_translations f).
Proof. intros Hf st H. unfold bind, get_translations. now apply Hf. Qed.

Lemma keeps_put (v : pyval) : good_store w v -> keeps_inv w (put_translations v).
Proof. now intros Hv st H. Qed.

Lemma keeps_put_source (v : pyval) : keeps_inv w (put_source_lang v).
Proof. now intros st H. Qed.

Lemma keeps_put_target (v : pyval) : keeps_inv w (put_target_lang v).
Proof. now intros st H. Qed.

Lemma keeps_get_source_bind {B} (f : pyval -> M B) :
  (forall v, keeps_inv w (f v)) -> keeps_inv w (bind get_source_lang f).
Proof. intros Hf st H. unfold bind, get_source_lang. now apply Hf. Qed.

Lemma keeps_get_target_bind {B} (f : pyval -> M B) :
  (forall v, keeps_inv w (f v)) -> keeps_inv w (bind get_target_lang f).
Proof. intros Hf st H. unfold bind, get_target_lang. now apply Hf. Qed.

Lemma keeps_load (code : pystr) : keeps_inv w (__load_translations w code).
Proof.
  intros st H.
  destruct (load_translations_cases w code st) as [(v & Hv & ->)|(e & ->)];
    simpl; [|exact H].
  right. now exists code.
Qed.

Lemma keeps_try_except {A} (m : M A) (c : exn -> bool) (h : exn -> M A) :
  keeps_inv w m -> (forall e, keeps_inv w (h e)) -> keeps_inv w (try_except m c h).
Proof.
  intros Hm Hh st H. unfold try_except. specialize (Hm st H).
  destruct (m st) as [[a|e] st1]; simpl in *; [exact Hm|].
  destruct (c e); [now apply Hh|exact Hm].
Qed.

Lemma keeps_try_finally {A} (m : M A) (v : pyval) :
  good_store w v -> keeps_inv w (try_finally m (set_translations v)).
Proof. intros Hv st H. unfold try_finally. now destruct (m st). Qed.

Lemma keeps_for_each {X} (l : list X) (body : X -> M unit) :
  (forall x, keeps_inv w (body x)) -> keeps_inv w (for_each l body).
Proof.
  intros Hb. induction l as [|x l IH]; simpl.
  - apply keeps_ret.
  - apply keeps_bind; [apply Hb|intros _; exact IH].
Qed.

Lemma good_store_empty : good_store w (VDict []).
Proof. now left. Qed.

Ltac keeps :=
  repeat lazymatch goal with
    | |- keeps_inv _ (ret _) => apply keeps_ret
    | |- keeps_inv _ (raise _) => apply keeps_raise
    | |- keeps_inv _ (lift _) => apply keeps_lift
    | |- keeps_inv _ (__load_translations _ _) => apply keeps_load
    | |- keeps_inv _ (put_source_lang _) => apply keeps_put_source
    | |- keeps_inv _ (put_target_lang _) => apply keeps_put_target
    | |- keeps_inv _ (put_translations _) =>
        apply keeps_put; first [assumption | apply good_store_empty]
    | |- keeps_inv _ (bind get_translations _) =>
        apply keeps_get_bind; intros ? ?
    | |- keeps_inv _ (bind get_source_lang _) =>
        apply keeps_get_source_bind; intros ?
    | |- keeps_inv _ (bind get_target_lang _) =>
        apply keeps_get_target_bind; intros ?
    | |- keeps_inv _ (bind _ _) => apply keeps_bind; [|intros ?]
    | |- keeps_inv _ (for_each _ _) => apply keeps_for_each; intros ?
    | |- keeps_inv _ (try_finally _ (set_translations _)) =>
        apply keeps_try_finally; assumption
    end.

Lemma keeps_translator (s t : pyval) : keeps_inv w (translator lower w s t).
Proof.
  unfold translator. destruct (as_code s); keeps.
  - destruct t; keeps; destruct (as_code _); keeps.
  - destruct (_ && _); keeps.
    match goal with |- keeps_inv _ (match ?v with _ => _ end) => destruct v end;
      keeps.
Qed.

Lemma gettext_state (p : pyval) (st : state) : snd (__gettext p st) = st.
Proof.
  unfold __gettext.
  destruct (as_code _); [|reflexivity].
  destruct (bad_target _); [reflexivity|].
  destruct (_ || _); [reflexivity|].
  destruct (py_keys _); [|reflexivity].
  destruct p; try reflexivity;
    destruct (__target_lang st); try reflexivity.
  now destruct (bool_decide _).
Qed.

Lemma keeps_gettext (p : pyval) : keeps_inv w (__gettext p).
Proof. intros st H. now rewrite gettext_state. Qed.

Lemma keeps_readable_name (l : pyval) : keeps_inv w (get_lang_readable_name w l).
Proof.
  unfold get_lang_readable_name.
  destruct (lang_eqb _ _); keeps. destruct (as_code l); keeps.
Qed.

Lemma keeps_getlangs (s : pyval) : keeps_inv w (getlangs lower w s).
Proof.
  unfold getlangs. destruct (as_code s); keeps.
  unfold getlangs_body. destruct (str_eqb _ _); keeps.
Qed.

Lemma keeps_template (s t : pyval) : keeps_inv w (get_data_template lower w s t).
Proof.
  unfold get_data_template.
  destruct (as_code s); keeps. destruct (as_code t); keeps.
Qed.

Lemma keeps_cleanup (t : pyval) : keeps_inv w (cleanup_translation_data w t).
Proof. unfold cleanup_translation_data. destruct (as_code t); keeps. Qed.

Lemma keeps_validate (s t : pyval) :
  keeps_inv w (validate_translation_data lower w s t).
Proof.
  unfold validate_translation_data.
  destruct (as_code s); keeps. destruct (as_code t); keeps.
  destruct (_ || _); keeps.
Qed.

Lemma exec_keeps (o : op) (st : state) :
  store_inv w st -> store_inv w (exec lower w o st).
Proof.
  destruct o; simpl.
  - apply keeps_translator.
  - apply keeps_gettext.
  - apply keeps_readable_name.
  - apply keeps_getlangs.
  - apply keeps_template.
  - apply keeps_cleanup.
  - apply keeps_validate.
Qed.

Lemma exec_all_keeps (ops : list op) (st : state) :
  store_inv w st -> store_inv w (exec_all lower w ops st).
Proof.
  revert st. induction ops as [|o ops IH]; intros st H; simpl; [exact H|].
  apply IH, exec_keeps, H.
Qed.
End StoreInvariant.

(** C4: after any sequence of calls of the module's functions, returning or
    raising, the translation store is the empty mapping or the whole parsed
    contents of one translation file; and a load either stores the whole
    parsed value of its file or raises with the state exactly as it was. *)
Theorem store_invariant (lower : pystr -> pystr) (w : world) :
  (forall ops, store_inv w (exec_all lower w ops initial_state))
  /\ (forall code st,
        match __load_translations w code st with
        | (Ok _, st') =>
            read_json w (code ++ translation_ext) = Ok (__translations st')
            /\ __source_lang st' = __source_lang st
            /\ __target_lang st' = __target_lang st
        | (Raise _, st') => st' = st
        end).
Proof.
  split.
  - intros ops. apply exec_all_keeps. now left.
  - intros code st.
    destruct (load_translations_cases w code st) as [(v & Hv & ->)|(e & ->)];
      [now rewrite Hv|reflexivity].
Qed.

(** ** Saving and restoring the store *)

Lemma set_translations_back (v : pyval) (st : state) :
  set_translations (__translations st) (set_translations v st) = st.
Proof. now destruct st. Qed.

(** The guarded part of a turn of the loop changes nothing but the store. *)
Lemma getlangs_guarded_state (lower : pystr -> pystr) (w : world)
    (source_lang lang : pystr) (st : state) :
  exists v,
    snd (try_except (getlangs_try lower w source_lang lang) is_RuntimeError
                    (getlangs_except lang) st) = set_translations v st.
Proof.
  assert (Hsame : st = set_translations (__translations st) st) by now destruct st.
  unfold try_except, getlangs_try, bind.
  destruct (load_translations_cases w lang st) as [(v & Hv & ->)|(e & ->)].
  - exists v.
    unfold declared_source, bind, get_translations, lift. simpl.
    destruct (py_getitem v (lit "__source_lang")) as [x|e] eqn:Ex; simpl.
    + destruct (py_lower_method lower x) as [d|e] eqn:Ed; simpl.
      * destruct (negb (str_eqb d source_lang)); simpl; [|reflexivity].
        rewrite Ex, Ed. simpl.
        unfold getlangs_except, raise.
        now destruct (str_contains _ _).
      * destruct (is_RuntimeError e); [|reflexivity].
        unfold getlangs_except, raise. now destruct (str_contains _ _).
    + destruct (is_RuntimeError e); [|reflexivity].
      unfold getlangs_except, raise. now destruct (str_contains _ _).
  - exists (__translations st).
    destruct (is_RuntimeError e); [|exact Hsame].
    unfold getlangs_except, raise. now destruct (str_contains _ _).
Qed.

Lemma getlangs_body_store (lower : pystr -> pystr) (w : world)
    (source_lang lang : pystr) (st : state) :
  snd (getlangs_body lower w source_lang (__translations st) lang st) = st.
Proof.
  unfold getlangs_body. destruct (str_eqb lang source_lang); [reflexivity|].
  destruct (getlangs_guarded_state lower w source_lang lang st) as [v Hv].
  unfold try_finally.
  destruct (try_except _ _ _ st) as [r s1]. simpl in *. subst s1.
  apply set_translations_back.
Qed.

(** [getlangs] leaves the whole state as it found it, on every way out. *)
Lemma getlangs_restores_state (lower : pystr -> pystr) (w : world)
    (source_lang : pyval) (st : state) :
  snd (getlangs lower w source_lang st) = st.
Proof.
  unfold getlangs. destruct (as_code source_lang) as [src|]; [|reflexivity].
  unfold bind at 1. unfold get_translations.
  generalize (map (take 2) ([lower src] ++ glob_translation w)) at 1 as langs.
  intros langs.
  assert (H : snd (for_each langs
                     (getlangs_body lower w (lower src) (__translations st)) st) = st).
  { induction langs as [|lang langs IH]; [reflexivity|].
    simpl. unfold bind.
    pose proof (getlangs_body_store lower w (lower src) lang st) as Hb.
    destruct (getlangs_body _ _ _ _ _ _) as [[[]|e] s1]; simpl in Hb; subst s1;
      [exact IH|reflexivity]. }
  unfold bind.
  destruct (for_each _ _ _) as [[[]|e] s1]; simpl in *; exact H.
Qed.

(** C3 fails on the code: three of the four functions leave the store
    swapped.  [cleanup_translation_data] returns normally with the loaded
    file in the store; [validate_translation_data] raises its warning and
    [get_lang_readable_name] raises on the missing key, both with the loaded
    file in the store. *)
Theorem store_left_swapped :
  (cleanup_translation_data world_pl (VStr (lit "pl")) initial_state
     = (Ok [], set_translations (VDict pl_entries) initial_state))
  /\ (exists report,
        validate_translation_data py_lower world_de
            (VStr (lit "en")) (VStr (lit "de")) initial_state
          = (Raise (RuntimeWarning report),
             set_translations (VDict de_entries) initial_state))
  /\ (get_lang_readable_name world_de (VStr (lit "de")) initial_state
        = (Raise (KeyError (lit "__target_lang_readable")),
           set_translations (VDict de_entries) initial_state))
  /\ __translations (set_translations (VDict pl_entries) initial_state)
       <> __translations initial_state
  /\ __translations (set_translations (VDict de_entries) initial_state)
       <> __translations initial_state.
Proof.
  split; [vm_compute; reflexivity|].
  split; [eexists; vm_compute; reflexivity|].
  split; [vm_compute; reflexivity|].
  split; discriminate.
Qed.

(** ** Enumerating the languages *)

(** C5 fails on the code: a candidate whose file lacks the [__source_lang]
    key, whose file is missing, or whose file does not parse makes
    [getlangs] raise the [KeyError], the [FileNotFoundError] or the
    [JSONDecodeError] itself, not the general loading error. *)
Theorem getlangs_lets_load_errors_through :
  getlangs py_lower world_de (VStr (lit "en")) initial_state
    = (Raise (KeyError (lit "__source_lang")), initial_state)
  /\ getlangs py_lower world_polish (VStr (lit "en")) initial_state
       = (Raise (FileNotFoundError
                   (lit "No translation file found for target language 'po'.")),
          initial_state)
  /\ (exists msg doc pos,
        getlangs py_lower world_malformed (VStr (lit "en")) initial_state
          = (Raise (JSONDecodeError msg doc pos), initial_state))
  /\ is_RuntimeError (KeyError (lit "__source_lang")) = false.
Proof.
  split; [vm_compute; reflexivity|].
  split; [vm_compute; reflexivity|].
  split; [do 3 eexists; vm_compute; reflexivity|].
  reflexivity.
Qed.

(** ** Language codes *)

(** C7 fails on the code: [get_lang_readable_name] and
    [cleanup_translation_data] use the code as it was passed.  The name of
    en is answered without a file, that of EN needs a file named EN; pl
    finds the Polish file, PL does not. *)
Theorem codes_not_lowercased :
  get_lang_readable_name empty_world (VStr (lit "en")) initial_state
    = (Ok (VStr (lit "English")), initial_state)
  /\ get_lang_readable_name empty_world (VStr (lit "EN")) initial_state
       = (Raise (FileNotFoundError
                   (lit "No translation file found for target language 'EN'.")),
          initial_state)
  /\ get_lang_readable_name world_pl (VStr (lit "pl")) initial_state
       = (Ok (VStr (lit "Polski")), initial_state)
  /\ get_lang_readable_name world_pl (VStr (lit "PL")) initial_state
       = (Raise (FileNotFoundError
                   (lit "No translation file found for target language 'PL'.")),
          initial_state)
  /\ fst (cleanup_translation_data world_pl (VStr (lit "pl")) initial_state)
       = Ok []
  /\ fst (cleanup_translation_data world_pl (VStr (lit "PL")) initial_state)
       = Raise (FileNotFoundError
                  (lit "No translation file found for target language 'PL'."))
  /\ py_lower (lit "EN") = lit "en" /\ py_lower (lit "PL") = lit "pl".
Proof. repeat split; vm_compute; reflexivity. Qed.

Lemma starts_with_app_l (p s t : pystr) :
  starts_with p s = true -> starts_with p (s ++ t) = true.
Proof.
  revert s. induction p as [|c p IH]; intros [|x s]; simpl; try easy.
  intros H. apply andb_true_iff in H as [-> H]. simpl. now apply IH.
Qed.

Lemma str_contains_app_l (p s t : pystr) :
  str_contains p s = true -> str_contains p (s ++ t) = true.
Proof.
  induction s as [|x s IH]; simpl.
  - rewrite orb_false_r. intros H. destruct p; [|discriminate].
    now destruct t.
  - intros H. apply orb_true_iff in H as [H|H].
    + change (x :: s ++ t) with ((x :: s) ++ t).
      now rewrite (starts_with_app_l _ _ t H).
    + rewrite (IH H). apply orb_true_r.
Qed.

(** The text of the mismatch error carries the words the handler looks for,
    whatever the three codes are. *)
Lemma mismatch_msg_marked (lang declared source_lang : pystr) :
  str_contains (lit "does not match") (mismatch_msg lang declared source_lang) = true.
Proof.
  unfold mismatch_msg.
  do 4 apply str_contains_app_r. now apply str_contains_app_l.
Qed.

Lemma getlangs_body_pass (lower : pystr -> pystr) (w : world)
    (source_lang lang : pystr) (st : state) :
  passes lower w source_lang lang ->
  getlangs_body lower w source_lang (__translations st) lang st = (Ok tt, st).
Proof.
  intros H. unfold getlangs_body.
  destruct (str_eqb lang source_lang) eqn:E; [reflexivity|].
  destruct H as [H|(v & d & Hv & Hd & Hl)];
    [apply str_eqb_neq in E; contradiction|].
  unfold try_finally, try_except, getlangs_try, bind, __load_translations.
  rewrite Hv. unfold declared_source, bind, get_translations, lift. simpl.
  rewrite Hd. simpl. rewrite Hl, str_eqb_refl. simpl.
  now destruct st.
Qed.

Lemma getlangs_body_mismatch (lower : pystr -> pystr) (w : world)
    (source_lang lang : pystr) (st : state) (v : pyval) (d : pystr) :
  lang <> source_lang ->
  read_json w (lang ++ translation_ext) = Ok v ->
  py_getitem v (lit "__source_lang") = Ok (VStr d) ->
  lower d <> source_lang ->
  getlangs_body lower w source_lang (__translations st) lang st
    = (Raise (RuntimeError (mismatch_msg lang (lower d) source_lang)), st).
Proof.
  intros Hlang Hv Hd Hl. unfold getlangs_body.
  apply str_eqb_neq in Hlang, Hl. rewrite Hlang.
  unfold try_finally, try_except, getlangs_try, bind, __load_translations.
  rewrite Hv. unfold declared_source, bind, get_translations, lift. simpl.
  rewrite Hd. simpl. rewrite Hl. simpl. rewrite Hd. simpl.
  unfold getlangs_except, exn_str. rewrite mismatch_msg_marked.
  unfold raise. now destruct st.
Qed.

Lemma for_each_pass (lower : pystr -> pystr) (w : world) (source_lang : pystr)
    (st : state) (langs : list pystr) :
  Forall (passes lower w source_lang) langs ->
  for_each langs (getlangs_body lower w source_lang (__translations st)) st
    = (Ok tt, st).
Proof.
  induction 1 as [|lang langs H _ IH]; [reflexivity|].
  simpl. unfold bind. now rewrite (getlangs_body_pass _ _ _ _ _ H).
Qed.

Lemma for_each_raise (lower : pystr -> pystr) (w : world) (source_lang : pystr)
    (st : state) (pre post : list pystr) (lang : pystr) (e : exn) :
  Forall (passes lower w source_lang) pre ->
  getlangs_body lower w source_lang (__translations st) lang st = (Raise e, st) ->
  for_each (pre ++ lang :: post)
           (getlangs_body lower w source_lang (__translations st)) st
    = (Raise e, st).
Proof.
  intros Hpre Hbody. induction Hpre as [|x pre H _ IH]; simpl; unfold bind.
  - now rewrite Hbody.
  - now rewrite (getlangs_body_pass _ _ _ _ _ H).
Qed.

(** C6, as the code has it.  With a two-character source code the list
    walked over is the lowercased source and the names found, each cut to its
    first two characters, in that order.  If every entry passes, that list is
    returned; whatever is returned is that list; and if the first entry that
    does not pass is not the source language and its file declares a
    [__source_lang] string whose lowercase form differs from the lowercased
    source, the call raises the mismatch [RuntimeError], whose text holds the
    declared and the given language, with the state as it was. *)
Theorem getlangs_spec
    (lower : pystr -> pystr) (w : world) (src : pystr) (st : state) :
  length src = 2%nat ->
  (Forall (passes lower w (lower src)) (candidates lower w src) ->
   getlangs lower w (VStr src) st = (Ok (candidates lower w src), st))
  /\ (forall r st', getlangs lower w (VStr src) st = (Ok r, st') ->
        r = take 2 (lower src) :: map (take 2) (glob_translation w))
  /\ (forall pre lang post v d,
        candidates lower w src = pre ++ lang :: post ->
        Forall (passes lower w (lower src)) pre ->
        lang <> lower src ->
        read_json w (lang ++ translation_ext) = Ok v ->
        py_getitem v (lit "__source_lang") = Ok (VStr d) ->
        lower d <> lower src ->
        exists msg,
          getlangs lower w (VStr src) st = (Raise (RuntimeError msg), st)
          /\ msg = mismatch_msg lang (lower d) (lower src)
          /\ str_contains (lower d) msg = true
          /\ str_contains (lower src) msg = true).
Proof.
  intros Hsrc.
  assert (Hrun : getlangs lower w (VStr src) st =
                 match for_each (candidates lower w src)
                         (getlangs_body lower w (lower src) (__translations st)) st with
                 | (Ok _, st') => (Ok (candidates lower w src), st')
                 | (Raise e, st') => (Raise e, st')
                 end).
  { unfold getlangs. rewrite (as_code_VStr _ Hsrc).
    unfold bind, get_translations, ret, candidates.
    now destruct (for_each _ _ st) as [[[]|e] st']. }
  split; [|split].
  - intros Hall. rewrite Hrun. now rewrite (for_each_pass _ _ _ _ _ Hall).
  - intros r st'. rewrite Hrun.
    destruct (for_each _ _ st) as [[[]|e] s1]; [|discriminate].
    now intros [= <- _].
  - intros pre lang post v d Hsplit Hpre Hlang Hv Hd Hl.
    exists (mismatch_msg lang (lower d) (lower src)).
    split; [|split; [reflexivity|split]].
    + rewrite Hrun, Hsplit.
      rewrite (for_each_raise lower w (lower src) st pre post lang _ Hpre
                 (getlangs_body_mismatch lower w _ _ st v d Hlang Hv Hd Hl)).
      reflexivity.
    + unfold mismatch_msg. do 2 apply str_contains_app_r. apply str_contains_mid.
    + unfold mismatch_msg. do 5 apply str_contains_app_r. apply str_contains_mid.
Qed.

Lemma getlangs_spec_witness :
  getlangs py_lower world_pl (VStr (lit "EN")) initial_state
    = (Ok [lit "en"; lit "pl"], initial_state)
  /\ (exists msg,
        getlangs py_lower world_pl_de (VStr (lit "EN")) initial_state
          = (Raise (RuntimeError msg), initial_state)
        /\ msg = mismatch_msg (lit "de") (lit "fr") (lit "en")
        /\ str_contains (lit "fr") msg = true
        /\ str_contains (lit "en") msg = true).
Proof.
  assert (Hpl : passes py_lower world_pl_de (lit "en") (lit "pl")).
  { right. exists (VDict pl_entries), (lit "en"). repeat split; reflexivity. }
  assert (Hpl' : passes py_lower world_pl (lit "en") (lit "pl")).
  { right. exists (VDict pl_entries), (lit "en"). repeat split; reflexivity. }
  split.
  - apply (proj1 (getlangs_spec py_lower world_pl (lit "EN") initial_state eq_refl)).
    constructor; [now left|]. constructor; [exact Hpl'|constructor].
  - apply (proj2 (proj2 (getlangs_spec py_lower world_pl_de (lit "EN")
                           initial_state eq_refl))
             [lit "en"; lit "pl"] (lit "de") []
             (VDict [(lit "__source_lang", VStr (lit "FR"));
                     (lit "__target_lang", VStr (lit "de"));
                     (lit "__target_lang_readable", VStr (lit "Deutsch"))])
             (lit "FR")).
    + reflexivity.
    + constructor; [now left|]. constructor; [exact Hpl|constructor].
    + discriminate.
    + reflexivity.
    + reflexivity.
    + discriminate.
Defined.

(** C6 as stated fails: a file found by [glob] under the source language's
    own name is never looked at, so the other language it declares raises
    nothing and the call returns. *)
Lemma getlangs_counterexample :
  py_getitem
    (VDict [(lit "__source_lang", VStr (lit "fr"));
            (lit "__target_lang", VStr (lit "en"));
            (lit "__target_lang_readable", VStr (lit "English"))])
    (lit "__source_lang") = Ok (VStr (lit "fr"))
  /\ py_lower (lit "fr") <> py_lower (lit "en")
  /\ glob_translation world_en_fr = [lit "en.translation"]
  /\ getlangs py_lower world_en_fr (VStr (lit "en")) initial_state
       = (Ok [lit "en"; lit "en"], initial_state).
Proof.
  split; [reflexivity|]. split; [discriminate|]. split; reflexivity.
Qed.

(** ** Scanning the calling script *)

Lemma rmatch_star_cons (p : list atom) (b : bool) (c : N) (s : pystr) :
  rmatch (AStarAny :: p) b (c :: s) =
    if c =? nl then rmatch p b (c :: s)
    else match rmatch (AStarAny :: p) false s with
         | Some r => Some r
         | None => rmatch p b (c :: s)
         end.
Proof. reflexivity. Qed.

Lemma rmatch_star_nil (p : list atom) (b : bool) :
  rmatch (AStarAny :: p) b [] = rmatch p b [].
Proof. reflexivity. Qed.

Lemma search_eq (p : list atom) (b : bool) (s : pystr) :
  search p b s =
    match rmatch p b s with
    | Some _ => true
    | None => match s with
              | [] => false
              | c :: s' => search p (c =? nl) s'
              end
    end.
Proof. now destruct s. Qed.

(** A greedy run followed by a number sign matches exactly when the line at
    hand holds a number sign. *)
Lemma rmatch_star_hash (s : pystr) (b : bool) :
  is_Some (rmatch [AStarAny; AChr hash] b s) <-> line_has_hash s = true.
Proof.
  revert b. induction s as [|c s IH]; intros b.
  - rewrite rmatch_star_nil. simpl. split; [intros [? [=]]|discriminate].
  - rewrite rmatch_star_cons. simpl line_has_hash.
    destruct (N.eqb_spec c nl) as [->|Hnl].
    + simpl. split; [intros [? [=]]|discriminate].
    + specialize (IH false).
      destruct (rmatch [AStarAny; AChr hash] false s) as [r|].
      * split; [intros _|intros _; now eexists].
        rewrite (proj1 IH) by (now eexists). apply orb_true_r.
      * assert (Hs : line_has_hash s = false).
        { destruct (line_has_hash s); [|reflexivity].
          destruct (proj2 IH eq_refl) as [? [=]]. }
        rewrite Hs, orb_false_r. simpl.
        destruct (c =? hash); split; try discriminate; try (intros [? [=]]);
          try reflexivity.
        intros _. now eexists.
Qed.

Lemma rmatch_comment_re (s : pystr) (b : bool) :
  is_Some (rmatch comment_re b s) <-> b = true /\ line_has_hash s = true.
Proof.
  change (rmatch comment_re b s)
    with (if b then rmatch [AStarAny; AChr hash] b s else None).
  destruct b.
  - rewrite rmatch_star_hash. tauto.
  - split; [intros [? [=]]|intros [[=] _]].
Qed.

Lemma line_has_hash_elem (s : pystr) : line_has_hash s = true -> hash ∈ s.
Proof.
  induction s as [|c s IH]; simpl; [discriminate|].
  destruct (c =? nl); [discriminate|].
  destruct (N.eqb_spec c hash) as [->|_]; simpl.
  - intros _. apply list_elem_of_here.
  - intros H. apply list_elem_of_further, IH, H.
Qed.

Lemma search_comment_sound (s : pystr) (b : bool) :
  search comment_re b s = true -> hash ∈ s.
Proof.
  revert b. induction s as [|c s IH]; intros b; rewrite search_eq.
  - destruct (rmatch comment_re b []) eqn:E; [|discriminate].
    intros _. apply line_has_hash_elem.
    apply (rmatch_comment_re [] b). rewrite E. now eexists.
  - destruct (rmatch comment_re b (c :: s)) eqn:E.
    + intros _. apply line_has_hash_elem.
      apply (rmatch_comment_re (c :: s) b). rewrite E. now eexists.
    + intros H. apply list_elem_of_further, (IH _ H).
Qed.

Lemma search_comment_complete (s : pystr) (b : bool) :
  hash ∈ s -> b = true \/ line_has_hash s = false ->
  search comment_re b s = true.
Proof.
  revert b. induction s as [|c s IH]; intros b Hin Hb.
  - inversion Hin.
  - rewrite search_eq.
    destruct (rmatch comment_re b (c :: s)) eqn:E; [reflexivity|].
    assert (Hline : line_has_hash (c :: s) = false).
    { destruct Hb as [->|Hb]; [|exact Hb].
      destruct (line_has_hash (c :: s)) eqn:El; [|reflexivity].
      destruct (proj2 (rmatch_comment_re (c :: s) true) (conj eq_refl El))
        as [r Hr].
      congruence. }
    simpl in Hline.
    destruct (N.eqb_spec c nl) as [->|Hnl].
    + apply IH; [|now left].
      apply elem_of_cons in Hin as [Hin|Hin]; [discriminate|exact Hin].
    + apply orb_false_iff in Hline as [Hc Hs].
      apply IH; [|now right].
      apply elem_of_cons in Hin as [<-|Hin]; [|exact Hin].
      now rewrite N.eqb_refl in Hc.
Qed.

(** The comment test of the scanning loop is the test for a number sign
    anywhere in the matched text. *)
Lemma search_comment_hash (s : pystr) :
  search comment_re true s = bool_decide (hash ∈ s).
Proof.
  destruct (bool_decide_reflect (hash ∈ s)) as [H|H].
  - apply search_comment_complete; [exact H|now left].
  - destruct (search comment_re true s) eqn:E; [|reflexivity].
    now apply search_comment_sound in E.
Qed.

(** The loop of the scanning functions is a left fold over the phrases that
    are kept. *)
Lemma scan_fold {A} (add : pystr -> A -> A) (init : A) (script : pystr) :
  scan add init script =
    foldl (fun acc phrase => add phrase acc) init
          (kept_phrases (finditer call_re true 0 script)).
Proof.
  unfold scan. generalize (finditer call_re true 0 script) as ms.
  intros ms. revert init.
  induction ms as [|m ms IH]; intros init; [reflexivity|].
  simpl. rewrite IH, search_comment_hash. unfold kept_phrases at 2. simpl.
  destruct (bool_decide (hash ∈ group0 m)); [reflexivity|].
  now destruct (group1 m).
Qed.

Lemma foldl_snoc_all {X} (l acc : list X) :
  foldl (fun acc x => acc ++ [x]) acc l = acc ++ l.
Proof.
  revert acc. induction l as [|x l IH]; intros acc; simpl.
  - now rewrite app_nil_r.
  - now rewrite IH, <- app_assoc.
Qed.

Lemma scan_list_kept (script : pystr) :
  scan_list script = kept_phrases (finditer call_re true 0 script).
Proof. unfold scan_list. rewrite scan_fold. apply foldl_snoc_all. Qed.



(** ** Validation *)

Lemma dict_keys_set {V} (k : pystr) (v : V) (d : list (pystr * V)) :
  dict_keys (dict_set k v d) = add_key (dict_keys d) k.
Proof.
  unfold add_key. induction d as [|[k' v'] d IH]; simpl; [reflexivity|].
  destruct (str_eqb k' k) eqn:E.
  - apply str_eqb_eq in E. subst k'.
    rewrite bool_decide_eq_true_2 by apply list_elem_of_here. reflexivity.
  - apply str_eqb_neq in E. simpl. rewrite IH.
    destruct (bool_decide_reflect (k ∈ dict_keys d)) as [H|H].
    + rewrite bool_decide_eq_true_2 by (now apply list_elem_of_further).
      reflexivity.
    + rewrite bool_decide_eq_false_2; [reflexivity|].
      intros Hin. apply elem_of_cons in Hin as [->|Hin]; contradiction.
Qed.

Lemma scan_dict_keys (seed : list (pystr * pystr)) (script : pystr) :
  dict_keys (scan_dict seed script) =
    foldl add_key (dict_keys seed) (scan_list script).
Proof.
  unfold scan_dict. rewrite scan_fold, scan_list_kept.
  generalize (kept_phrases (finditer call_re true 0 script)) as ps.
  intros ps. revert seed.
  induction ps as [|p ps IH]; intros seed; [reflexivity|].
  simpl. now rewrite IH, dict_keys_set.
Qed.

Lemma add_keys_elem (ks ps : list pystr) (x : pystr) :
  x ∈ foldl add_key ks ps <-> x ∈ ks \/ x ∈ ps.
Proof.
  revert ks. induction ps as [|p ps IH]; intros ks; simpl.
  - split; [now left|]. intros [H|H]; [exact H|inversion H].
  - rewrite IH. unfold add_key.
    destruct (bool_decide_reflect (p ∈ ks)) as [Hp|Hp].
    + rewrite elem_of_cons. split; [tauto|].
      intros [H|[->|H]]; tauto.
    + rewrite elem_of_app, list_elem_of_singleton, elem_of_cons. tauto.
Qed.

Lemma add_keys_NoDup (ks ps : list pystr) :
  NoDup ks -> NoDup (foldl add_key ks ps).
Proof.
  revert ks. induction ps as [|p ps IH]; intros ks Hks; simpl; [exact Hks|].
  apply IH. unfold add_key.
  destruct (bool_decide_reflect (p ∈ ks)) as [Hp|Hp]; [exact Hks|].
  rewrite list.NoDup_app. split; [exact Hks|split; [|apply NoDup_singleton]].
  intros x Hx Hx'. apply list_elem_of_singleton in Hx'. now subst.
Qed.

Lemma filter_fst_length {V} (P : pystr -> Prop) `{!forall k, Decision (P k)}
    (d : list (pystr * V)) :
  length (filter (fun kv => P (fst kv)) d) = length (filter P (dict_keys d)).
Proof.
  induction d as [|[k v] d IH]; [reflexivity|].
  simpl. rewrite !filter_cons. simpl.
  destruct (decide (P k)); simpl; now rewrite IH.
Qed.

Lemma filter_split_length (ks : list pystr) :
  length ks =
    (length (filter (fun k => is_special k = true) ks)
     + length (filter (fun k => is_special k = false) ks))%nat.
Proof.
  induction ks as [|k ks IH]; [reflexivity|].
  rewrite !filter_cons. destruct (is_special k) eqn:E.
  - rewrite decide_True, decide_False by easy. simpl. now rewrite IH.
  - rewrite decide_False, decide_True by easy. simpl. rewrite IH. lia.
Qed.

Lemma seed_keys_special (k : pystr) : k ∈ seed_keys -> is_special k = true.
Proof.
  unfold seed_keys. rewrite !elem_of_cons.
  intros [->|[->|[->|H]]]; [reflexivity..|inversion H].
Qed.

Lemma seed_keys_NoDup : NoDup seed_keys.
Proof. apply (bool_decide_eq_true_1 (NoDup seed_keys)). vm_compute. reflexivity. Qed.

(** The keys of [scriptdata] outside the special ones are the distinct plain
    phrases of the script. *)
Lemma plain_keys_length (script : pystr) :
  length (filter (fun k => is_special k = false)
                 (foldl add_key seed_keys (scan_list script)))
    = length (plain_phrases script).
Proof.
  apply Permutation_length, list.NoDup_Permutation.
  - apply list.NoDup_filter, add_keys_NoDup, seed_keys_NoDup.
  - apply NoDup_remove_dups.
  - intros x. unfold plain_phrases.
    rewrite elem_of_remove_dups, !list_elem_of_filter, add_keys_elem.
    split; [|tauto]. intros [Hx [Hs|Hp]]; [|tauto].
    apply seed_keys_special in Hs. congruence.
Qed.

(** Its special keys are the three it starts with and the distinct scanned
    phrases that look like one. *)
Lemma special_keys_length (script : pystr) :
  length (filter (fun k => is_special k = true)
                 (foldl add_key seed_keys (scan_list script)))
    = (3 + length (extra_special_phrases script))%nat.
Proof.
  change 3%nat with (length seed_keys). rewrite <- length_app.
  apply Permutation_length, list.NoDup_Permutation.
  - apply list.NoDup_filter, add_keys_NoDup, seed_keys_NoDup.
  - rewrite list.NoDup_app. split; [apply seed_keys_NoDup|].
    split; [|apply NoDup_remove_dups].
    intros x Hx. unfold extra_special_phrases.
    rewrite elem_of_remove_dups, list_elem_of_filter. tauto.
  - intros x. unfold extra_special_phrases.
    rewrite elem_of_app, elem_of_remove_dups, !list_elem_of_filter, add_keys_elem.
    split.
    + intros [Hx [Hs|Hp]]; [now left|].
      destruct (decide (x ∈ seed_keys)); [now left|now right].
    + intros [Hs|[[Hx Hn] Hp]]; [|tauto].
      split; [now apply seed_keys_special|now left].
Qed.

Lemma validate_loop_ok (d : list (pystr * pyval)) (keys missings incompletes : list pystr) :
  (forall key, key ∈ keys ->
     exists s, dict_get key d = Some (VStr s) /\ strip s <> []) ->
  validate_loop (VDict d) keys missings incompletes = Ok (missings, incompletes).
Proof.
  induction keys as [|key keys IH]; intros H; [reflexivity|].
  destruct (H key) as (s & Hs & Hne); [apply list_elem_of_here|].
  simpl. rewrite bool_decide_eq_true_2 by (eapply dict_get_Some_keys, Hs).
  simpl. rewrite Hs. simpl.
  destruct (strip s); [contradiction|]. simpl.
  apply IH. intros k Hk. apply H. now apply list_elem_of_further.
Qed.

(** C9, as the code has it: when the two codes are two characters long, the
    file of the lowercased target parses to a mapping, and every key of
    [scriptdata] (the three special keys and the scanned phrases) has in it a
    string value that is not blank, the call returns the count summary with
    the state as it was before.  There N is the number of distinct scanned
    phrases that do not start with two underscores, and M is 3 plus the
    number of distinct scanned phrases that start with two underscores and
    are none of the three special keys. *)
Theorem validate_success_summary
    (lower : pystr -> pystr) (w : world) (src tgt script : pystr) (st : state)
    (d : list (pystr * pyval)) :
  length src = 2%nat -> length tgt = 2%nat ->
  read_caller w = Ok script ->
  read_json w (lower tgt ++ translation_ext) = Ok (VDict d) ->
  (forall key, key ∈ seed_keys ++ scan_list script ->
     exists s, dict_get key d = Some (VStr s) /\ strip s <> []) ->
  validate_translation_data lower w (VStr src) (VStr tgt) st =
    (Ok (summary (length (plain_phrases script))
                 (3 + length (extra_special_phrases script))), st).
Proof.
  intros Hsrc Htgt Hscript Hfile Hkeys.
  unfold validate_translation_data.
  rewrite (as_code_VStr _ Hsrc), (as_code_VStr _ Htgt), Hscript.
  unfold bind, lift, get_translations, __load_translations.
  rewrite Hfile. cbn [__translations set_translations].
  set (scriptdata := scan_dict (seed_data (lower src) (lower tgt)) script).
  assert (Hdk : dict_keys scriptdata = foldl add_key seed_keys (scan_list script))
    by apply scan_dict_keys.
  rewrite validate_loop_ok; cycle 1.
  { intros key Hk. apply Hkeys. rewrite Hdk in Hk.
    apply add_keys_elem in Hk. now apply elem_of_app. }
  cbn [fst snd length Nat.ltb Nat.leb orb].
  unfold put_translations, ret. rewrite set_translations_back.
  f_equal. f_equal.
  pose proof (filter_fst_length (fun k => is_special k = true) scriptdata) as Hf.
  pose proof (filter_split_length (dict_keys scriptdata)) as Hsplit.
  assert (Hlen : length scriptdata = length (dict_keys scriptdata))
    by (unfold dict_keys; now rewrite length_map).
  rewrite Hdk in Hf, Hsplit, Hlen.
  rewrite plain_keys_length, special_keys_length in Hsplit.
  rewrite special_keys_length in Hf.
  cbn beta in Hf. rewrite Hf, Hlen, Hsplit.
  f_equal. lia.
Qed.

Lemma validate_success_summary_witness :
  validate_translation_data py_lower world_pl (VStr (lit "EN")) (VStr (lit "PL"))
      initial_state
    = (Ok (summary (length (plain_phrases hello_script))
                   (3 + length (extra_special_phrases hello_script))),
       initial_state).
Proof.
  apply (validate_success_summary py_lower world_pl (lit "EN") (lit "PL")
           hello_script initial_state pl_entries);
    try reflexivity.
  intros key Hkey.
  change (seed_keys ++ scan_list hello_script)
    with (seed_keys ++ [lit "Hello"]) in Hkey.
  unfold seed_keys in Hkey. simpl in Hkey.
  rewrite !elem_of_cons in Hkey.
  destruct Hkey as [->|[->|[->|[->|Hkey]]]]; [| | | |inversion Hkey];
    eexists; (split; [reflexivity|discriminate]).
Defined.

(** C9 as stated fails on the number of special keys: a script that looks up
    a phrase starting with two underscores, with a file that translates it,
    validates with no missing and no incomplete entry, and the summary counts
    no translatable string and four special keys. *)
Lemma validate_summary_counterexample :
  read_caller world_dunder = Ok dunder_script
  /\ scan_list dunder_script = [lit "__x"]
  /\ validate_translation_data py_lower world_dunder
         (VStr (lit "en")) (VStr (lit "pl")) initial_state
       = (Ok (lit "Found 0 unique translatable strings in file, plus 4 special keys. All translation data OK."),
          initial_state).
Proof. repeat split; vm_compute; reflexivity. Qed.

(** When no scanned phrase starts with two underscores, the special keys
    counted are the three the validation starts with. *)
Lemma extra_special_phrases_none (script : pystr) :
  Forall (fun p => is_special p = false) (scan_list script) ->
  extra_special_phrases script = [].
Proof.
  intros H. unfold extra_special_phrases.
  induction H as [|p ps Hp _ IH]; [reflexivity|].
  rewrite filter_cons, decide_False; [exact IH|].
  intros [Hs _]. congruence.
Qed.

(** * Further properties of the module *)

(** ** Arguments that are not language codes *)

(** X1: a source or target argument that is not a two-character string is
    refused with a [ValueError] before anything is read or stored: the state
    is untouched and the outcome is the same in every directory.  For the
    functions with two arguments the source is checked first. *)
Theorem invalid_codes_rejected
    (lower : pystr -> pystr) (w : world) (bad other : pyval) (src : pystr)
    (st : state) :
  as_code bad = None -> length src = 2%nat ->
  translator lower w bad other st
    = (Raise (ValueError
                (lit "source_lang must be a two character string, such as 'en' or 'pl'.")),
       st)
  /\ get_lang_readable_name w bad st
       = (Raise (ValueError
                   (lit "source_lang must be a two character string, such as 'en' or 'pl'.")),
          st)
  /\ getlangs lower w bad st
       = (Raise (ValueError
                   (lit "source_lang must be a string of exactly two characters in length.")),
          st)
  /\ get_data_template lower w bad other st
       = (Raise (ValueError (code_error_msg (lit "source_lang"))), st)
  /\ get_data_template lower w (VStr src) bad st
       = (Raise (ValueError (code_error_msg (lit "target_lang"))), st)
  /\ cleanup_translation_data w bad st
       = (Raise (ValueError (code_error_msg (lit "target_lang"))), st)
  /\ validate_translation_data lower w bad other st
       = (Raise (ValueError (code_error_msg (lit "source_lang"))), st)
  /\ validate_translation_data lower w (VStr src) bad st
       = (Raise (ValueError (code_error_msg (lit "target_lang"))), st).
Proof.
  intros Hbad Hsrc.
  assert (Hen : lang_eqb bad (VStr (lit "en")) = false).
  { destruct bad; try reflexivity. simpl.
    apply str_eqb_neq. intros ->. discriminate. }
  unfold translator, get_lang_readable_name, getlangs, get_data_template,
    cleanup_translation_data, validate_translation_data.
  rewrite Hbad, Hen, (as_code_VStr _ Hsrc).
  repeat split.
Qed.

Lemma invalid_codes_rejected_witness :
  translator py_lower world_pl (VStr (lit "eng")) VNone state_en_pl
    = (Raise (ValueError
                (lit "source_lang must be a two character string, such as 'en' or 'pl'.")),
       state_en_pl)
  /\ validate_translation_data py_lower world_pl (VStr (lit "en")) (VStr (lit "eng"))
         state_en_pl
       = (Raise (ValueError (code_error_msg (lit "target_lang"))), state_en_pl).
Proof.
  pose proof (invalid_codes_rejected py_lower world_pl (VStr (lit "eng")) VNone
                (lit "en") state_en_pl eq_refl eq_refl) as H.
  split; [apply H|apply H].
Defined.

(** ** Calls that only read *)

(** X2: the lookup function and [get_data_template] leave the three module
    variables exactly as they found them, whether they return or raise. *)
Theorem lookup_and_template_read_only
    (lower : pystr -> pystr) (w : world) (p s t : pyval) (st : state) :
  snd (__gettext p st) = st
  /\ snd (get_data_template lower w s t st) = st.
Proof.
  split; [apply gettext_state|].
  unfold get_data_template.
  destruct (as_code s); [|reflexivity].
  destruct (as_code t); [|reflexivity].
  unfold bind, lift, ret. now destruct (read_caller w).
Qed.

(** ** More on configuration *)

(** X3: a call of [translator] that returns has replaced all three module
    variables: what it leaves behind depends on its arguments and on the
    directory alone, not on any earlier configuration. *)
Theorem translator_success_overwrites_state
    (lower : pystr -> pystr) (w : world) (s t : pyval) (st1 st2 st' : state)
    (h : handle) :
  translator lower w s t st1 = (Ok h, st') ->
  translator lower w s t st2 = (Ok h, st').
Proof.
  destruct h. unfold translator.
  destruct (as_code s) as [src|]; [|discriminate].
  unfold bind, put_source_lang, put_target_lang, get_target_lang,
    get_source_lang, put_translations, raise, ret.
  destruct t as [|b|z|r|tgt|l|d]; simpl; try discriminate.
  - intros [= <-]. reflexivity.
  - destruct (Nat.eqb (length tgt) 2); simpl; [|discriminate].
    destruct (str_eqb (lower tgt) (lower src)); simpl;
      [intros [= <-]; reflexivity|].
    unfold __load_translations.
    destruct (read_json w (lower tgt ++ translation_ext)) as [v|e]; simpl.
    + intros [= <-]. reflexivity.
    + destruct e; discriminate.
Qed.

Lemma translator_success_overwrites_state_witness :
  translator py_lower world_pl (VStr (lit "EN")) (VStr (lit "PL")) initial_state
    = (Ok Gettext, state_en_pl).
Proof.
  apply (translator_success_overwrites_state py_lower world_pl
           (VStr (lit "EN")) (VStr (lit "PL")) state_en_pl initial_state).
  reflexivity.
Defined.

(** X4: when the file of the target cannot be loaded, [translator] raises
    the error of the load with both language variables already set to the new
    lowercased codes and the store still holding what it held before; the
    lookup function then translates with that earlier table. *)
Theorem translator_load_failure_keeps_store
    (lower : pystr -> pystr) (w : world) (src tgt : pystr) (st : state) (e : exn) :
  length src = 2%nat -> length tgt = 2%nat -> lower tgt <> lower src ->
  read_json w (lower tgt ++ translation_ext) = Raise e ->
  exists e' st',
    translator lower w (VStr src) (VStr tgt) st = (Raise e', st')
    /\ fst (__load_translations w (lower tgt) st) = Raise e'
    /\ __source_lang st' = VStr (lower src)
    /\ __target_lang st' = VStr (lower tgt)
    /\ __translations st' = __translations st
    /\ (forall d P T,
          length (lower src) = 2%nat -> length (lower tgt) = 2%nat ->
          __translations st = VDict d -> dict_get P d = Some T ->
          __gettext (VStr P) st' = (Ok T, st')).
Proof.
  intros Hs Ht Hne Hfile. apply str_eqb_neq in Hne.
  set (st1 := set_target_lang (VStr (lower tgt))
                (set_source_lang (VStr (lower src)) st)).
  assert (Hload : exists e', __load_translations w (lower tgt) st = (Raise e', st)
                             /\ __load_translations w (lower tgt) st1 = (Raise e', st1)).
  { unfold __load_translations. rewrite Hfile.
    destruct e; eexists; split; reflexivity. }
  destruct Hload as (e' & Hl & Hl1).
  exists e', st1. split; [|split; [now rewrite Hl|repeat split]].
  - unfold translator. rewrite (as_code_VStr _ Hs), (as_code_VStr _ Ht).
    unfold bind, ret. simpl. rewrite Hne. simpl.
    fold st1. now rewrite Hl1.
  - intros d P T Hls Hlt Hd HP. unfold __gettext. simpl.
    rewrite Hls, Hlt, Hne, Hd. simpl.
    rewrite bool_decide_eq_true_2 by (eapply dict_get_Some_keys, HP).
    now rewrite HP.
Qed.

Lemma translator_load_failure_keeps_store_witness :
  exists e' st',
    translator py_lower world_pl (VStr (lit "en")) (VStr (lit "DE")) state_en_pl
      = (Raise e', st')
    /\ fst (__load_translations world_pl (py_lower (lit "DE")) state_en_pl) = Raise e'
    /\ __source_lang st' = VStr (py_lower (lit "en"))
    /\ __target_lang st' = VStr (py_lower (lit "DE"))
    /\ __translations st' = __translations state_en_pl
    /\ (forall d P T,
          length (py_lower (lit "en")) = 2%nat ->
          length (py_lower (lit "DE")) = 2%nat ->
          __translations state_en_pl = VDict d -> dict_get P d = Some T ->
          __gettext (VStr P) st' = (Ok T, st')).
Proof.
  apply (translator_load_failure_keeps_store py_lower world_pl (lit "en") (lit "DE")
           state_en_pl (FileNotFoundError (lit "de.translation")));
    try reflexivity.
  discriminate.
Defined.

(** X5: the choice between passing through and translating is made on the
    lowercased codes: a target that differs from the source by case alone
    empties the store, whatever it held, and the lookup function gives every
    phrase back unchanged. *)
Theorem translator_same_code_up_to_case
    (lower : pystr -> pystr) (w : world) (src tgt : pystr) (p : pyval) (st : state) :
  length src = 2%nat -> length tgt = 2%nat ->
  lower tgt = lower src -> length (lower src) = 2%nat ->
  exists h st',
    translator lower w (VStr src) (VStr tgt) st = (Ok h, st')
    /\ __translations st' = VDict []
    /\ call h p st' = (Ok p, st').
Proof.
  intros Hs Ht Heq Hl.
  exists Gettext,
    (set_translations (VDict [])
       (set_target_lang (VStr (lower tgt)) (set_source_lang (VStr (lower src)) st))).
  split; [|split; [reflexivity|]].
  - unfold translator. rewrite (as_code_VStr _ Hs), (as_code_VStr _ Ht).
    unfold bind, ret. simpl. now rewrite Heq, str_eqb_refl.
  - unfold call, __gettext. simpl. rewrite Heq, Hl. simpl.
    now rewrite str_eqb_refl.
Qed.

Lemma translator_same_code_up_to_case_witness :
  exists h st',
    translator py_lower world_pl (VStr (lit "pl")) (VStr (lit "PL")) state_en_pl
      = (Ok h, st')
    /\ __translations st' = VDict []
    /\ call h (VStr (lit "Hello")) st' = (Ok (VStr (lit "Hello")), st').
Proof.
  apply (translator_same_code_up_to_case py_lower world_pl (lit "pl") (lit "PL")
           (VStr (lit "Hello")) state_en_pl);
    reflexivity.
Defined.

(** X6: the loaded file is not checked to be a JSON object.  When it parses
    to any other value, [translator] succeeds with that value in the store,
    and every lookup then raises an [AttributeError]. *)
Theorem translator_accepts_non_mapping
    (lower : pystr -> pystr) (w : world) (src tgt : pystr) (v p : pyval) (st : state) :
  length src = 2%nat -> length tgt = 2%nat ->
  length (lower src) = 2%nat -> length (lower tgt) = 2%nat ->
  lower tgt <> lower src ->
  read_json w (lower tgt ++ translation_ext) = Ok v ->
  (forall d, v <> VDict d) ->
  exists h st' msg,
    translator lower w (VStr src) (VStr tgt) st = (Ok h, st')
    /\ __translations st' = v
    /\ call h p st' = (Raise (AttributeError msg), st').
Proof.
  intros Hs Ht Hls Hlt Hne Hfile Hv. apply str_eqb_neq in Hne.
  exists Gettext,
    (set_translations v
       (set_target_lang (VStr (lower tgt)) (set_source_lang (VStr (lower src)) st))),
    (lit "object has no attribute 'keys'").
  split; [|split; [reflexivity|]].
  - unfold translator. rewrite (as_code_VStr _ Hs), (as_code_VStr _ Ht).
    unfold bind, ret. simpl. rewrite Hne. simpl.
    unfold __load_translations. now rewrite Hfile.
  - unfold call, __gettext. simpl. rewrite Hls, Hlt, Hne. simpl.
    destruct v; try reflexivity. now destruct (Hv d).
Qed.

Lemma translator_accepts_non_mapping_witness :
  exists h st' msg,
    translator py_lower world_array (VStr (lit "en")) (VStr (lit "pl")) initial_state
      = (Ok h, st')
    /\ __translations st' = VList [VStr (lit "Hello")]
    /\ call h (VStr (lit "Hello")) st' = (Raise (AttributeError msg), st').
Proof.
  apply (translator_accepts_non_mapping py_lower world_array (lit "en") (lit "pl")
           (VList [VStr (lit "Hello")]) (VStr (lit "Hello")) initial_state);
    try reflexivity; discriminate.
Defined.

(** ** The readable name of a language *)

(** X7: for en the name English is answered without looking at any file,
    in every directory and state; for another two-character code whose file
    parses to a mapping holding [__target_lang_readable], the value found
    there is returned and the state is exactly what it was before. *)
Theorem readable_name_found
    (w : world) (code : pystr) (d : list (pystr * pyval)) (name : pyval) (st : state) :
  length code = 2%nat -> code <> lit "en" ->
  read_json w (code ++ translation_ext) = Ok (VDict d) ->
  dict_get (lit "__target_lang_readable") d = Some name ->
  get_lang_readable_name w (VStr code) st = (Ok name, st)
  /\ get_lang_readable_name w (VStr (lit "en")) st = (Ok (VStr (lit "English")), st).
Proof.
  intros Hc Hen Hfile Hname. split; [|reflexivity].
  unfold get_lang_readable_name. simpl.
  apply str_eqb_neq in Hen. rewrite Hen, Hc. simpl.
  unfold bind, get_translations, __load_translations, lift, put_translations, ret.
  rewrite Hfile. simpl. rewrite Hname. simpl. now destruct st.
Qed.

Lemma readable_name_found_witness :
  get_lang_readable_name world_pl (VStr (lit "pl")) state_en_pl
    = (Ok (VStr (lit "Polski")), state_en_pl)
  /\ get_lang_readable_name world_pl (VStr (lit "en")) state_en_pl
       = (Ok (VStr (lit "English")), state_en_pl).
Proof.
  apply (readable_name_found world_pl (lit "pl") pl_entries (VStr (lit "Polski"))
           state_en_pl);
    try reflexivity.
  discriminate.
Defined.

(** ** More on the enumeration *)

Lemma getlangs_body_raise (lower : pystr -> pystr) (w : world)
    (source_lang lang : pystr) (st st1 : state) (e : exn) :
  lang <> source_lang ->
  getlangs_try lower w source_lang lang st = (Raise e, st1) ->
  getlangs_body lower w source_lang (__translations st) lang st
    = (Raise (handled lang e), st).
Proof.
  intros Hlang Htry.
  pose proof (getlangs_body_store lower w source_lang lang st) as Hst.
  revert Hst. unfold getlangs_body.
  apply str_eqb_neq in Hlang. rewrite Hlang.
  unfold try_finally, try_except, handled. rewrite Htry.
  destruct (is_RuntimeError e); simpl.
  - unfold getlangs_except, raise.
    destruct (str_contains _ _); simpl; now intros ->.
  - now intros ->.
Qed.

(** X8: [getlangs] stops at the first candidate that is not the source
    language and whose load or check raises.  An exception outside the
    [RuntimeError] family leaves the call as it is; one of that family is
    replaced by the general loading error naming the candidate, unless its
    text holds the words of the mismatch error, in which case it is raised
    again unchanged.  The state is what it was before the call. *)
Theorem getlangs_first_failure
    (lower : pystr -> pystr) (w : world) (src : pystr) (st st1 : state)
    (pre post : list pystr) (lang : pystr) (e : exn) :
  length src = 2%nat ->
  candidates lower w src = pre ++ lang :: post ->
  Forall (passes lower w (lower src)) pre ->
  lang <> lower src ->
  getlangs_try lower w (lower src) lang st = (Raise e, st1) ->
  getlangs lower w (VStr src) st
    = (Raise (if is_RuntimeError e
                 && negb (str_contains (lit "does not match") (exn_str e))
              then RuntimeError (load_error_msg lang)
              else e), st).
Proof.
  intros Hsrc Hsplit Hpre Hlang Htry.
  unfold getlangs. rewrite (as_code_VStr _ Hsrc).
  unfold bind, get_translations.
  change (map (take 2) ([lower src] ++ glob_translation w))
    with (candidates lower w src).
  rewrite Hsplit.
  rewrite (for_each_raise lower w (lower src) st pre post lang (handled lang e) Hpre
             (getlangs_body_raise lower w _ _ st st1 e Hlang Htry)).
  reflexivity.
Qed.

Lemma getlangs_first_failure_witness :
  getlangs py_lower world_deep (VStr (lit "en")) initial_state
    = (Raise (if is_RuntimeError (RecursionError (lit "maximum recursion depth exceeded"))
                 && negb (str_contains (lit "does not match")
                            (exn_str (RecursionError
                                        (lit "maximum recursion depth exceeded"))))
              then RuntimeError (load_error_msg (lit "xx"))
              else RecursionError (lit "maximum recursion depth exceeded")),
       initial_state).
Proof.
  apply (getlangs_first_failure py_lower world_deep (lit "en") initial_state
           initial_state [lit "en"] [] (lit "xx")
           (RecursionError (lit "maximum recursion depth exceeded"))).
  - reflexivity.
  - reflexivity.
  - constructor; [now left|constructor].
  - discriminate.
  - reflexivity.
Defined.

(** X9: a call of [getlangs], returning or raising, leaves nothing behind:
    the state is the one before the call, so the lookup function answers
    every phrase as it did before. *)
Theorem getlangs_then_lookup_unchanged
    (lower : pystr -> pystr) (w : world) (source_lang p : pyval) (st : state) :
  snd (getlangs lower w source_lang st) = st
  /\ __gettext p (snd (getlangs lower w source_lang st)) = __gettext p st.
Proof.
  assert (H : snd (getlangs lower w source_lang st) = st)
    by apply getlangs_restores_state.
  split; [exact H|now rewrite H].
Qed.

(** ** The reports *)

Lemma cleanup_fold (scriptdata keys acc : list pystr) :
  foldl (fun report phrase =>
           if is_special phrase then report
           else if negb (bool_decide (phrase ∈ scriptdata))
                then report ++ [not_in_source_line phrase]
                else report)
        acc keys
    = acc ++ map not_in_source_line (unused_keys scriptdata keys).
Proof.
  revert acc. unfold unused_keys.
  induction keys as [|k keys IH]; intros acc; simpl.
  - now rewrite app_nil_r.
  - rewrite IH, filter_cons. destruct (is_special k) eqn:Es.
    + rewrite decide_False by (intros [? _]; congruence). reflexivity.
    + destruct (bool_decide_reflect (k ∈ scriptdata)) as [Hin|Hin]; simpl.
      * rewrite decide_False by tauto. reflexivity.
      * rewrite decide_True by tauto. simpl. now rewrite <- app_assoc.
Qed.

(** X10: for a two-character target whose file parses to a mapping,
    [cleanup_translation_data] returns one line for every key of the file
    that neither starts with two underscores nor is a scanned phrase, in the
    order of the file, joined by line feeds (the empty text when there is
    none), and ends with the file in the store.  The target is used as it
    was passed. *)
Theorem cleanup_report
    (w : world) (tgt script : pystr) (d : list (pystr * pyval)) (st : state) :
  length tgt = 2%nat ->
  read_caller w = Ok script ->
  read_json w (tgt ++ translation_ext) = Ok (VDict d) ->
  cleanup_translation_data w (VStr tgt) st
    = (Ok (join [nl] (map not_in_source_line
                          (unused_keys (scan_list script) (dict_keys d)))),
       set_translations (VDict d) st).
Proof.
  intros Ht Hscript Hfile.
  unfold cleanup_translation_data.
  rewrite (as_code_VStr _ Ht), Hscript.
  unfold bind, lift, get_translations, __load_translations, ret.
  rewrite Hfile. simpl. now rewrite cleanup_fold.
Qed.

Lemma cleanup_report_witness :
  cleanup_translation_data world_de (VStr (lit "de")) initial_state
    = (Ok (join [nl] (map not_in_source_line
                          (unused_keys (scan_list hello_script)
                                       (dict_keys de_entries)))),
       set_translations (VDict de_entries) initial_state).
Proof.
  apply (cleanup_report world_de (lit "de") hello_script de_entries initial_state);
    reflexivity.
Defined.

Lemma validate_loop_result (d : list (pystr * pyval))
    (keys missings incompletes : list pystr) :
  validate_loop (VDict d) keys missings incompletes
    = Ok (missings ++ map missing_line (filter (fun k => is_missing d k = true) keys),
          incompletes
            ++ map incomplete_line (filter (fun k => is_incomplete d k = true) keys)).
Proof.
  revert missings incompletes.
  induction keys as [|k keys IH]; intros ms ins; simpl.
  - now rewrite !app_nil_r.
  - rewrite !filter_cons.
    destruct (bool_decide_reflect (k ∈ dict_keys d)) as [Hin|Hin]; simpl.
    + assert (Hm : is_missing d k = false)
        by (unfold is_missing; now rewrite bool_decide_eq_true_2).
      rewrite (decide_False (P := is_missing d k = true)) by congruence.
      destruct (dict_get k d) as [v|] eqn:Ek; simpl;
        [|now apply dict_get_None_keys in Ek].
      assert (Hi : is_incomplete d k = no_valid_translation v)
        by (unfold is_incomplete; now rewrite Ek).
      destruct (no_valid_translation v); rewrite IH.
      * rewrite (decide_True (P := is_incomplete d k = true)) by exact Hi.
        simpl. now rewrite <- app_assoc.
      * rewrite (decide_False (P := is_incomplete d k = true)) by congruence.
        reflexivity.
    + assert (Hm : is_missing d k = true)
        by (unfold is_missing; now rewrite bool_decide_eq_false_2).
      assert (Hi : is_incomplete d k = false).
      { unfold is_incomplete. destruct (dict_get k d) eqn:Ek; [|reflexivity].
        now apply dict_get_Some_keys in Ek. }
      rewrite (decide_True (P := is_missing d k = true)) by exact Hm.
      rewrite (decide_False (P := is_incomplete d k = true)) by congruence.
      rewrite IH. simpl. now rewrite <- app_assoc.
Qed.

(** X11: for two-character codes and a target file that parses to a
    mapping, [validate_translation_data] goes through the three special keys
    and the scanned phrases.  If a key has no entry in the file, or an entry
    that is not a string or is blank, the call raises a [RuntimeWarning]
    whose text is built from the keys with a poor entry and the keys without
    one, each in the order of the script, and the loaded file stays in the
    store. *)
Theorem validate_warning
    (lower : pystr -> pystr) (w : world) (src tgt script : pystr) (st : state)
    (d : list (pystr * pyval)) :
  length src = 2%nat -> length tgt = 2%nat ->
  read_caller w = Ok script ->
  read_json w (lower tgt ++ translation_ext) = Ok (VDict d) ->
  filter (fun k => is_missing d k = true) (validation_keys script) <> []
  \/ filter (fun k => is_incomplete d k = true) (validation_keys script) <> [] ->
  validate_translation_data lower w (VStr src) (VStr tgt) st
    = (Raise (RuntimeWarning
                (lit "Errors found in translation data:" ++ [nl]
                   ++ build_report
                        (map missing_line
                           (filter (fun k => is_missing d k = true)
                                   (validation_keys script)))
                        (map incomplete_line
                           (filter (fun k => is_incomplete d k = true)
                                   (validation_keys script))))),
       set_translations (VDict d) st).
Proof.
  intros Hsrc Htgt Hscript Hfile Hsome.
  unfold validate_translation_data.
  rewrite (as_code_VStr _ Hsrc), (as_code_VStr _ Htgt), Hscript.
  unfold bind, lift, get_translations, __load_translations.
  rewrite Hfile. cbn [__translations set_translations].
  rewrite validate_loop_result.
  rewrite (scan_dict_keys (seed_data (lower src) (lower tgt)) script).
  change (foldl add_key (dict_keys (seed_data (lower src) (lower tgt)))
                (scan_list script))
    with (validation_keys script).
  cbn [fst snd app].
  set (ms := filter (fun k => is_missing d k = true) (validation_keys script)) in *.
  set (ins := filter (fun k => is_incomplete d k = true) (validation_keys script)) in *.
  assert (Hlen : Nat.ltb 0 (length (map incomplete_line ins))
                 || Nat.ltb 0 (length (map missing_line ms)) = true).
  { rewrite !length_map.
    destruct Hsome as [H|H]; [destruct ms|destruct ins]; try contradiction;
      simpl; now rewrite ?orb_true_r. }
  now rewrite Hlen.
Qed.

Lemma validate_warning_witness :
  validate_translation_data py_lower world_de (VStr (lit "en")) (VStr (lit "DE"))
      initial_state
    = (Raise (RuntimeWarning
                (lit "Errors found in translation data:" ++ [nl]
                   ++ build_report
                        (map missing_line
                           (filter (fun k => is_missing de_entries k = true)
                                   (validation_keys hello_script)))
                        (map incomplete_line
                           (filter (fun k => is_incomplete de_entries k = true)
                                   (validation_keys hello_script))))),
       set_translations (VDict de_entries) initial_state).
Proof.
  apply (validate_warning py_lower world_de (lit "en") (lit "DE") hello_script
           initial_state de_entries);
    try reflexivity.
  left. vm_compute. discriminate.
Defined.

Lemma join_snoc (sep x : pystr) (parts : list pystr) :
  exists front, join sep (parts ++ [x]) = front ++ x.
Proof.
  induction parts as [|p parts IH]; simpl.
  - now exists [].
  - destruct IH as [front IH].
    destruct (parts ++ [x]) as [|q rest] eqn:E.
    + now destruct parts.
    + exists (p ++ sep ++ front). rewrite IH. now rewrite <- !app_assoc.
Qed.

(** X12: when keys are missing, the text of the warning is the list of
    lines joined by line feeds with exactly the comma and the line feed that
    end the last missing entry taken off: nothing of a key is cut. *)
Theorem build_report_trims_last_comma (keys : list pystr) (incompletes : list pystr) :
  keys <> [] ->
  build_report (map missing_line keys) incompletes ++ [44; nl]
    = join [nl] ((incompletes ++ [missing_header]) ++ map missing_line keys).
Proof.
  intros Hkeys. unfold build_report.
  assert (Hlen : Nat.ltb 0 (length (map missing_line keys)) = true)
    by (destruct keys; [contradiction|reflexivity]).
  rewrite Hlen.
  destruct (exists_last Hkeys) as (front & k & ->).
  rewrite map_app. simpl map. rewrite app_assoc.
  destruct (join_snoc [nl] (missing_line k)
              ((incompletes ++ [missing_header]) ++ map missing_line front))
    as [text ->].
  unfold missing_line.
  replace (text ++ lit "    " ++ [dquote] ++ k ++ [dquote] ++ lit ": None," ++ [nl])
    with ((text ++ lit "    " ++ [dquote] ++ k ++ [dquote] ++ lit ": None") ++ [44; nl])
    by (rewrite <- !app_assoc; reflexivity).
  rewrite length_app. simpl length.
  rewrite Nat.add_sub. now rewrite take_app_length.
Qed.

Lemma build_report_trims_last_comma_witness :
  build_report (map missing_line [lit "Hello"]) [] ++ [44; nl]
    = join [nl] (([] ++ [missing_header]) ++ map missing_line [lit "Hello"]).
Proof.
  apply (build_report_trims_last_comma [lit "Hello"] []). discriminate.
Defined.

(** ** The template *)

Lemma dict_get_set {V} (k k' : pystr) (v : V) (d : list (pystr * V)) :
  dict_get k' (dict_set k v d) = if str_eqb k k' then Some v else dict_get k' d.
Proof.
  induction d as [|[k0 v0] d IH]; simpl.
  - reflexivity.
  - destruct (str_eqb k0 k) eqn:E0; simpl.
    + apply str_eqb_eq in E0 as ->. now destruct (str_eqb k k').
    + rewrite IH. destruct (str_eqb k0 k') eqn:E1; [|reflexivity].
      apply str_eqb_eq in E1 as ->.
      destruct (str_eqb k k') eqn:E2; [|reflexivity].
      apply str_eqb_eq in E2 as ->. now rewrite str_eqb_refl in E0.
Qed.

Lemma dict_get_update_all {V} (k : pystr) (v : V) (ps : list pystr)
    (d : list (pystr * V)) :
  dict_get k (foldl (fun acc p => dict_set p v acc) d ps)
    = if bool_decide (k ∈ ps) then Some v else dict_get k d.
Proof.
  revert d. induction ps as [|p ps IH]; intros d; simpl; [reflexivity|].
  rewrite IH, dict_get_set.
  destruct (bool_decide_reflect (k ∈ ps)) as [Hin|Hin].
  - rewrite bool_decide_eq_true_2 by (now apply list_elem_of_further). reflexivity.
  - destruct (str_eqb p k) eqn:E.
    + apply str_eqb_eq in E. subst p.
      rewrite bool_decide_eq_true_2 by apply list_elem_of_here. reflexivity.
    + apply str_eqb_neq in E. rewrite bool_decide_eq_false_2; [reflexivity|].
      intros H. apply elem_of_cons in H as [->|H]; contradiction.
Qed.

Lemma add_keys_prefix (ks ps : list pystr) :
  exists rest, foldl add_key ks ps = ks ++ rest /\ sublist rest ps.
Proof.
  revert ks. induction ps as [|p ps IH]; intros ks; simpl.
  - exists []. split; [now rewrite app_nil_r|constructor].
  - unfold add_key at 2. destruct (bool_decide (p ∈ ks)).
    + destruct (IH ks) as (rest & -> & Hsub).
      exists rest. split; [reflexivity|now apply sublist_cons].
    + destruct (IH (ks ++ [p])) as (rest & -> & Hsub).
      exists (p :: rest). split; [now rewrite <- app_assoc|now apply sublist_skip].
Qed.

(** X13: for two-character codes and a readable script,
    [get_data_template] returns the serialization of a mapping whose keys are
    the three special keys followed by scanned phrases in the order of the
    script, none twice; every scanned phrase is mapped to the empty string,
    also when it is written like one of the special keys, and every other key
    keeps the value the mapping started with. *)
Theorem template_data
    (lower : pystr -> pystr) (w : world) (src tgt script : pystr) (st : state) :
  length src = 2%nat -> length tgt = 2%nat ->
  read_caller w = Ok script ->
  exists data rest,
    get_data_template lower w (VStr src) (VStr tgt) st = (Ok (json_dumps data), st)
    /\ dict_keys data = seed_keys ++ rest
    /\ sublist rest (scan_list script)
    /\ NoDup (dict_keys data)
    /\ (forall p, p ∈ scan_list script -> dict_get p data = Some [])
    /\ (forall k, k ∉ scan_list script ->
          dict_get k data = dict_get k (seed_data (lower src) (lower tgt))).
Proof.
  intros Hsrc Htgt Hscript.
  set (data := scan_dict (seed_data (lower src) (lower tgt)) script).
  assert (Hkeys : dict_keys data = foldl add_key seed_keys (scan_list script))
    by apply scan_dict_keys.
  assert (Hget : forall k,
            dict_get k data
              = if bool_decide (k ∈ scan_list script) then Some []
                else dict_get k (seed_data (lower src) (lower tgt))).
  { intros k. unfold data, scan_dict. rewrite scan_fold, <- scan_list_kept.
    apply dict_get_update_all. }
  destruct (add_keys_prefix seed_keys (scan_list script)) as (rest & Hrest & Hsub).
  exists data, rest. repeat split.
  - unfold get_data_template.
    now rewrite (as_code_VStr _ Hsrc), (as_code_VStr _ Htgt), Hscript.
  - now rewrite Hkeys.
  - exact Hsub.
  - rewrite Hkeys. apply add_keys_NoDup, seed_keys_NoDup.
  - intros p Hp. rewrite Hget. now rewrite bool_decide_eq_true_2.
  - intros k Hk. rewrite Hget. now rewrite bool_decide_eq_false_2.
Qed.

Lemma template_data_witness :
  exists data rest,
    get_data_template py_lower world_pl (VStr (lit "EN")) (VStr (lit "PL")) state_en_pl
      = (Ok (json_dumps data), state_en_pl)
    /\ dict_keys data = seed_keys ++ rest
    /\ sublist rest (scan_list hello_script)
    /\ NoDup (dict_keys data)
    /\ (forall p, p ∈ scan_list hello_script -> dict_get p data = Some [])
    /\ (forall k, k ∉ scan_list hello_script ->
          dict_get k data
            = dict_get k (seed_data (py_lower (lit "EN")) (py_lower (lit "PL")))).
Proof.
  apply (template_data py_lower world_pl (lit "EN") (lit "PL") hello_script
           state_en_pl);
    reflexivity.
Defined.

(** ** What the scanner can find *)

Lemma rmatch_group_eq (p : list atom) (b : bool) (s : pystr) :
  rmatch (AGroupLazyPlusAny :: p) b s = lazy_from (rmatch p false) [] s.
Proof. reflexivity. Qed.

Lemma rmatch_chr_inv (c : N) (p : list atom) (b : bool) (s : pystr)
    (r : option pystr * pystr) :
  rmatch (AChr c :: p) b s = Some r ->
  exists s', s = c :: s' /\ rmatch p (c =? nl) s' = Some r.
Proof.
  destruct s as [|x s']; simpl; [discriminate|].
  destruct (N.eqb_spec x c) as [->|_]; [|discriminate].
  intros H. now exists s'.
Qed.

Lemma rmatch_set_inv (cs : list N) (p : list atom) (b : bool) (s : pystr)
    (r : option pystr * pystr) :
  rmatch (ASet cs :: p) b s = Some r ->
  exists x s', s = x :: s' /\ in_set x cs = true /\ rmatch p (x =? nl) s' = Some r.
Proof.
  destruct s as [|x s']; simpl; [discriminate|].
  destruct (in_set x cs) eqn:E; [|discriminate].
  intros H. now exists x, s'.
Qed.

Lemma rmatch_star_inv (p : list atom) (s : pystr) (b : bool)
    (r : option pystr * pystr) :
  rmatch (AStarAny :: p) b s = Some r ->
  exists pre b' s', s = pre ++ s' /\ (nl ∉ pre) /\ rmatch p b' s' = Some r.
Proof.
  revert b. induction s as [|c s IH]; intros b.
  - rewrite rmatch_star_nil. intros H. exists [], b, [].
    repeat split; [apply not_elem_of_nil|exact H].
  - rewrite rmatch_star_cons.
    destruct (N.eqb_spec c nl) as [->|Hnl].
    + intros H. exists [], b, (nl :: s).
      repeat split; [apply not_elem_of_nil|exact H].
    + destruct (rmatch (AStarAny :: p) false s) as [r0|] eqn:E.
      * intros [= <-]. destruct (IH false E) as (pre & b' & s' & -> & Hpre & Hr).
        exists (c :: pre), b', s'. repeat split; [|exact Hr].
        intros Hin. apply elem_of_cons in Hin as [Hin|Hin]; [congruence|contradiction].
      * intros H. exists [], b, (c :: s).
        repeat split; [apply not_elem_of_nil|exact H].
Qed.

Lemma lazy_from_inv (k : pystr -> option (option pystr * pystr)) (s acc : pystr)
    (g : option pystr) (rest : pystr) :
  lazy_from k acc s = Some (g, rest) ->
  exists ph s' g',
    g = Some (acc ++ ph) /\ ph <> [] /\ (nl ∉ ph) /\ s = ph ++ s'
    /\ k s' = Some (g', rest).
Proof.
  revert acc. induction s as [|c s IH]; intros acc; simpl; [discriminate|].
  destruct (N.eqb_spec c nl) as [->|Hnl]; [discriminate|].
  destruct (k s) as [[g' rest']|] eqn:E.
  - intros [= <- <-]. exists [c], s, g'.
    repeat split; [discriminate| |exact E].
    intros Hin. apply list_elem_of_singleton in Hin. congruence.
  - intros H. destruct (IH _ H) as (ph & s' & g' & -> & _ & Hph & -> & Hk).
    exists (c :: ph), s', g'. rewrite <- app_assoc.
    repeat split; [discriminate| |exact Hk].
    intros Hin. apply elem_of_cons in Hin as [Hin|Hin]; [congruence|contradiction].
Qed.

Lemma in_set_quote (q : N) : in_set q [dquote; squote] = true -> is_quote q.
Proof.
  unfold in_set, is_quote. simpl. rewrite orb_false_r.
  intros H. apply orb_true_iff in H as [H|H]; apply N.eqb_eq in H; tauto.
Qed.

(** A match of the call pattern consumes a run without line feed, a call
    with a phrase that is neither empty nor holds a line feed, and another
    run without line feed. *)
Lemma rmatch_call_re_inv (b : bool) (s : pystr) (g : option pystr) (rest : pystr) :
  rmatch call_re b s = Some (g, rest) ->
  exists pre q1 ph q2 post,
    g = Some ph /\ ph <> [] /\ (nl ∉ ph) /\ is_quote q1 /\ is_quote q2
    /\ s = (pre ++ call_text q1 q2 ph ++ post) ++ rest.
Proof.
  unfold call_re.
  change (rmatch (ABol :: ?p) b s) with (if b then rmatch p b s else None).
  destruct b; [|discriminate]. intros H.
  apply rmatch_star_inv in H as (pre & b1 & s1 & -> & _ & H).
  apply rmatch_chr_inv in H as (s2 & -> & H).
  apply rmatch_chr_inv in H as (s3 & -> & H).
  apply rmatch_set_inv in H as (q1 & s4 & -> & Hq1 & H).
  rewrite rmatch_group_eq in H.
  apply lazy_from_inv in H as (ph & s5 & g' & -> & Hne & Hnl & -> & H).
  apply rmatch_set_inv in H as (q2 & s6 & -> & Hq2 & H).
  apply rmatch_chr_inv in H as (s7 & -> & H).
  apply rmatch_star_inv in H as (post & b2 & s8 & -> & _ & H).
  assert (Hrest : s8 = rest).
  { destruct s8 as [|c s8]; simpl in H; [now injection H|].
    destruct (c =? nl); [now injection H|discriminate]. }
  subst s8.
  exists pre, q1, ph, q2, post.
  repeat split; try assumption; try (now apply in_set_quote).
  unfold call_text. simpl. rewrite <- !app_assoc. simpl.
  now rewrite <- !app_assoc.
Qed.

Lemma finditer_eq (p : list atom) (b : bool) (skip : nat) (s : pystr) :
  finditer p b skip s =
    match skip with
    | S k => match s with
             | [] => []
             | c :: s' => finditer p (c =? nl) k s'
             end
    | O =>
        match rmatch p b s with
        | Some (g, rest) =>
            ReMatch (take (length s - length rest) s) g ::
              match s with
              | [] => []
              | c :: s' => finditer p (c =? nl) (length s - length rest - 1) s'
              end
        | None => match s with
                  | [] => []
                  | c :: s' => finditer p (c =? nl) 0 s'
                  end
        end
    end.
Proof. destruct s, skip; reflexivity. Qed.

(** Every match reported comes from a match of the pattern at some place of
    the text. *)
Lemma finditer_elem (p : list atom) (s : pystr) (b : bool) (skip : nat) (m : rematch) :
  m ∈ finditer p b skip s ->
  exists front s' b' rest,
    s = front ++ s'
    /\ rmatch p b' s' = Some (group1 m, rest)
    /\ group0 m = take (length s' - length rest) s'.
Proof.
  revert b skip. induction s as [|c s IH]; intros b skip; rewrite finditer_eq.
  - destruct skip; [|intros H; inversion H].
    destruct (rmatch p b []) as [[g rest]|] eqn:E; [|intros H; inversion H].
    intros H. apply list_elem_of_singleton in H. subst m.
    exists [], [], b, rest. now repeat split.
  - assert (Hlater : forall b0 k, m ∈ finditer p b0 k s ->
              exists front s' b' rest,
                c :: s = front ++ s'
                /\ rmatch p b' s' = Some (group1 m, rest)
                /\ group0 m = take (length s' - length rest) s').
    { intros b0 k H. destruct (IH _ _ H) as (front & s' & b' & rest & -> & Hr & Hg).
      exists (c :: front), s', b', rest. now repeat split. }
    destruct skip; [|apply Hlater].
    destruct (rmatch p b (c :: s)) as [[g rest]|] eqn:E; [|apply Hlater].
    intros H. apply elem_of_cons in H as [->|H]; [|now apply (Hlater _ _ H)].
    exists [], (c :: s), b, rest. now repeat split.
Qed.

(** The shape of every match of the call pattern in a script. *)
Lemma finditer_call_shape (script : pystr) (m : rematch) :
  m ∈ finditer call_re true 0 script ->
  exists front pre q1 ph q2 post rest,
    group1 m = Some ph /\ ph <> [] /\ (nl ∉ ph) /\ is_quote q1 /\ is_quote q2
    /\ group0 m = pre ++ call_text q1 q2 ph ++ post
    /\ script = front ++ group0 m ++ rest.
Proof.
  intros Hm.
  apply finditer_elem in Hm as (front & s' & b' & rest & -> & Hr & Hg).
  apply rmatch_call_re_inv in Hr
    as (pre & q1 & ph & q2 & post & Hg1 & Hne & Hnl & Hq1 & Hq2 & ->).
  rewrite length_app, Nat.add_sub, take_app_length in Hg.
  exists front, pre, q1, ph, q2, post, rest.
  rewrite Hg. now repeat split.
Qed.

(** X14: whatever the script, a phrase that the scanning loop keeps is not
    empty, holds neither a line feed nor a number sign, and stands in the
    script between an underscore with an opening parenthesis and a quote, and
    a quote with a closing parenthesis; the two quotes need not be of the
    same kind. *)
Theorem scanned_phrases_come_from_calls (script p : pystr) :
  p ∈ scan_list script ->
  p <> [] /\ (nl ∉ p) /\ (hash ∉ p)
  /\ exists before q1 q2 after,
       is_quote q1 /\ is_quote q2
       /\ script = before ++ call_text q1 q2 p ++ after.
Proof.
  rewrite scan_list_kept. unfold kept_phrases.
  rewrite list_elem_of_omap. intros (m & Hm & Hkeep).
  destruct (bool_decide_reflect (hash ∈ group0 m)) as [Hh|Hh]; [discriminate|].
  apply finditer_call_shape in Hm
    as (front & pre & q1 & ph & q2 & post & rest
        & Hg1 & Hne & Hnl & Hq1 & Hq2 & Hg0 & ->).
  rewrite Hkeep in Hg1. injection Hg1 as <-.
  repeat split; [exact Hne|exact Hnl| |].
  - intros Hin. apply Hh. rewrite Hg0. unfold call_text.
    rewrite !elem_of_app. right. left. right. left. exact Hin.
  - exists (front ++ pre), q1, q2, (post ++ rest).
    repeat split; [exact Hq1|exact Hq2|].
    rewrite Hg0. now rewrite <- !app_assoc.
Qed.

Lemma scanned_phrases_come_from_calls_witness :
  lit "Hello" <> [] /\ (nl ∉ lit "Hello") /\ (hash ∉ lit "Hello")
  /\ exists before q1 q2 after,
       is_quote q1 /\ is_quote q2
       /\ hello_script = before ++ call_text q1 q2 (lit "Hello") ++ after.
Proof.
  apply (scanned_phrases_come_from_calls hello_script (lit "Hello")).
  apply (bool_decide_eq_true_1 (lit "Hello" ∈ scan_list hello_script)).
  vm_compute. reflexivity.
Defined.

(** X15: a script in which no underscore is followed by an opening
    parenthesis gives no phrase, and the template made from it holds the
    three special keys alone. *)
Theorem script_without_calls
    (lower : pystr -> pystr) (w : world) (src tgt script : pystr) (st : state) :
  length src = 2%nat -> length tgt = 2%nat ->
  read_caller w = Ok script ->
  str_contains (lit "_(") script = false ->
  scan_list script = []
  /\ get_data_template lower w (VStr src) (VStr tgt) st
       = (Ok (json_dumps (seed_data (lower src) (lower tgt))), st).
Proof.
  intros Hsrc Htgt Hscript Hno.
  assert (Hempty : scan_list script = []).
  { destruct (scan_list script) as [|p ps] eqn:E; [reflexivity|].
    assert (Hp : p ∈ scan_list script) by (rewrite E; apply list_elem_of_here).
    rewrite scan_list_kept in Hp. unfold kept_phrases in Hp.
    apply list_elem_of_omap in Hp as (m & Hm & _).
    apply finditer_call_shape in Hm
      as (front & pre & q1 & ph & q2 & post & rest & _ & _ & _ & _ & _ & Hg0 & ->).
    rewrite Hg0 in Hno.
    change (call_text q1 q2 ph) with (lit "_(" ++ [q1] ++ ph ++ [q2; rparen]) in Hno.
    rewrite <- !app_assoc in Hno.
    rewrite (app_assoc front pre) in Hno.
    rewrite str_contains_mid in Hno. discriminate. }
  split; [exact Hempty|].
  unfold get_data_template.
  rewrite (as_code_VStr _ Hsrc), (as_code_VStr _ Htgt), Hscript.
  unfold bind, lift, ret, scan_dict. rewrite scan_fold, <- scan_list_kept, Hempty.
  reflexivity.
Qed.

Lemma script_without_calls_witness :
  scan_list (lit "print('Hello')") = []
  /\ get_data_template py_lower (world_of [] [] (lit "print('Hello')"))
         (VStr (lit "EN")) (VStr (lit "PL")) initial_state
       = (Ok (json_dumps (seed_data (py_lower (lit "EN")) (py_lower (lit "PL")))),
          initial_state).
Proof.
  apply (script_without_calls py_lower (world_of [] [] (lit "print('Hello')"))
           (lit "EN") (lit "PL") (lit "print('Hello')") initial_state);
    reflexivity.
Defined.

Lemma rmatch_call_re_bol (s : pystr) : rmatch call_re false s = None.
Proof. reflexivity. Qed.

Lemma finditer_call_re_bound (s : pystr) (b : bool) (skip : nat) :
  (length (finditer call_re b skip s) <= (if b then 1 else 0) + count_nl s)%nat.
Proof.
  revert b skip. induction s as [|c s IH]; intros b skip; rewrite finditer_eq.
  - destruct skip; [|simpl; lia].
    destruct b; [|rewrite rmatch_call_re_bol; simpl; lia].
    destruct (rmatch call_re true []) as [[g rest]|]; simpl; lia.
  - assert (Hlater : forall k,
              (length (finditer call_re (N.eqb c nl) k s) <= count_nl (c :: s))%nat).
    { intros k. specialize (IH (N.eqb c nl) k). simpl.
      destruct (N.eqb c nl); simpl in *; lia. }
    destruct skip; [|specialize (Hlater skip); lia].
    destruct b.
    + destruct (rmatch call_re true (c :: s)) as [[g rest]|].
      * simpl length at 1.
        specialize (Hlater (S (length s) - length rest - 1)%nat). lia.
      * specialize (Hlater 0%nat). lia.
    + rewrite rmatch_call_re_bol. specialize (Hlater 0%nat). lia.
Qed.

Lemma omap_length_le {A B} (f : A -> option B) (l : list A) :
  (length (omap f l) <= length l)%nat.
Proof.
  induction l as [|x l IH]; simpl; [lia|].
  change (list_omap A B f l) with (omap f l).
  destruct (f x); simpl; lia.
Qed.

(** X16: a line of the script gives at most one phrase, however many calls
    it holds: the number of phrases scanned is at most the number of lines. *)
Theorem one_phrase_per_line (script : pystr) :
  (length (scan_list script) <= S (count_nl script))%nat.
Proof.
  rewrite scan_list_kept. unfold kept_phrases.
  pose proof (omap_length_le
                (fun m => if bool_decide (hash ∈ group0 m) then None else group1 m)
                (finditer call_re true 0 script)) as H1.
  pose proof (finditer_call_re_bound script true 0) as H2.
  simpl in H2. lia.
Qed.

(** ** The tools and the session *)

Lemma getlangs_body_blind (lower : pystr -> pystr) (w : world)
    (source_lang lang : pystr) (st1 st2 : state) :
  fst (getlangs_body lower w source_lang (__translations st1) lang st1)
  = fst (getlangs_body lower w source_lang (__translations st2) lang st2).
Proof.
  unfold getlangs_body. destruct (str_eqb lang source_lang); [reflexivity|].
  unfold try_finally, try_except, getlangs_try, bind, __load_translations.
  destruct (read_json w (lang ++ translation_ext)) as [v|e].
  - unfold declared_source, bind, get_translations, lift. simpl.
    destruct (py_getitem v (lit "__source_lang")) as [x|e] eqn:Ex; simpl.
    + destruct (py_lower_method lower x) as [d|e] eqn:Ed; simpl.
      * destruct (negb (str_eqb d source_lang)); simpl; [|reflexivity].
        rewrite Ex, Ed. simpl.
        unfold getlangs_except, raise. now destruct (str_contains _ _).
      * destruct (is_RuntimeError e); [|reflexivity].
        unfold getlangs_except, raise. now destruct (str_contains _ _).
    + destruct (is_RuntimeError e); [|reflexivity].
      unfold getlangs_except, raise. now destruct (str_contains _ _).
  - destruct e; simpl; try reflexivity;
      unfold getlangs_except, raise; now destruct (str_contains _ _).
Qed.

Lemma getlangs_loop_blind (lower : pystr -> pystr) (w : world)
    (source_lang : pystr) (langs : list pystr) (st1 st2 : state) :
  fst (for_each langs (getlangs_body lower w source_lang (__translations st1)) st1)
  = fst (for_each langs (getlangs_body lower w source_lang (__translations st2)) st2).
Proof.
  induction langs as [|lang langs IH]; [reflexivity|].
  simpl. unfold bind.
  pose proof (getlangs_body_blind lower w source_lang lang st1 st2) as Hf.
  pose proof (getlangs_body_store lower w source_lang lang st1) as H1.
  pose proof (getlangs_body_store lower w source_lang lang st2) as H2.
  destruct (getlangs_body lower w source_lang (__translations st1) lang st1)
    as [r1 s1].
  destruct (getlangs_body lower w source_lang (__translations st2) lang st2)
    as [r2 s2].
  simpl in *. subst r2 s1 s2. destruct r1 as [[]|e]; [exact IH|reflexivity].
Qed.

(** X17: what [getlangs], [get_lang_readable_name], [get_data_template],
    [cleanup_translation_data] and [validate_translation_data] return or
    raise does not depend on the three module variables: the tools neither
    need nor consult the session set up by [translator]. *)
Theorem tools_ignore_session
    (lower : pystr -> pystr) (w : world) (s t : pyval) (st1 st2 : state) :
  fst (getlangs lower w s st1) = fst (getlangs lower w s st2)
  /\ fst (get_lang_readable_name w s st1) = fst (get_lang_readable_name w s st2)
  /\ fst (get_data_template lower w s t st1) = fst (get_data_template lower w s t st2)
  /\ fst (cleanup_translation_data w t st1) = fst (cleanup_translation_data w t st2)
  /\ fst (validate_translation_data lower w s t st1)
     = fst (validate_translation_data lower w s t st2).
Proof.
  repeat split.
  - unfold getlangs. destruct (as_code s) as [src|]; [|reflexivity].
    unfold bind, get_translations.
    pose proof (getlangs_loop_blind lower w (lower src)
                  (map (take 2) ([lower src] ++ glob_translation w)) st1 st2) as H.
    destruct (for_each _ _ st1) as [r1 s1].
    destruct (for_each _ _ st2) as [r2 s2].
    simpl in H. subst r2. now destruct r1.
  - unfold get_lang_readable_name.
    destruct (lang_eqb s (VStr (lit "en"))); [reflexivity|].
    destruct (as_code s) as [code|]; [|reflexivity].
    unfold bind, get_translations, __load_translations, lift, put_translations, ret.
    destruct (read_json w (code ++ translation_ext)) as [v|e]; simpl.
    + now destruct (py_getitem v _).
    + now destruct e.
  - unfold get_data_template.
    destruct (as_code s); [|reflexivity].
    destruct (as_code t); [|reflexivity].
    unfold bind, lift, ret. now destruct (read_caller w).
  - unfold cleanup_translation_data.
    destruct (as_code t) as [tgt|]; [|reflexivity].
    unfold bind, lift, get_translations, __load_translations, ret.
    destruct (read_caller w) as [script|e]; [|reflexivity].
    destruct (read_json w (tgt ++ translation_ext)) as [v|e]; simpl.
    + now destruct (py_keys v).
    + now destruct e.
  - unfold validate_translation_data.
    destruct (as_code s) as [src|]; [|reflexivity].
    destruct (as_code t) as [tgt|]; [|reflexivity].
    unfold bind, lift, get_translations, __load_translations, put_translations,
      raise, ret.
    destruct (read_caller w) as [script|e]; [|reflexivity].
    destruct (read_json w (lower tgt ++ translation_ext)) as [v|e]; simpl.
    + destruct (validate_loop v _ [] []) as [[ms ins]|e]; simpl; [|reflexivity].
      now destruct (_ || _).
    + now destruct e.
Qed.
